(** * Vacation calendar: the request store and the calendar projector of db.py

    A shallow embedding of [src/db.py].  The SQLite database is modelled as a
    record of two tables kept in rowid order; every SQL statement the module
    issues is written out as the list operation it denotes.

    Modelling conventions.
    - A Python [date] is a record of year, month and day.  SQLite stores a
      date as its ISO text (zero padded, four digit year), so the text
      comparisons of the queries coincide with the comparison of dates; both
      are the lexicographic order on (year, month, day)
      ([isoformat_ltb]).
    - [cur += timedelta(days=1)] is the calendar successor; past
      9999-12-31 Python raises [OverflowError].
    - [datetime.utcnow()] and [CURRENT_TIMESTAMP] are read from a clock
      value handed to the operation.
    - A statement runs inside [get_conn], which commits on exit: a statement
      that fails is backed out by SQLite and the exception reaches the caller.
    - Failures of the storage itself (I/O, disk full, rowid exhaustion) are
      not modelled. *)

From stdpp Require Import gmap strings list fin_maps.
From Stdlib Require Import ZArith Lia Sorted.

Local Open Scope Z_scope.

(** ** Outcomes of a call *)

Inductive exn : Type :=
  | ValueError       (* date(...) out of range, calendar.IllegalMonthError *)
  | OverflowError    (* date + timedelta past date.max; an int that does not
                        fit a C int (date) or a SQLite INTEGER (binding) *)
  | IntegrityError.  (* sqlite3.IntegrityError: CHECK constraint failed *)

(** [OutOfFuel] is not a Python outcome: it is what a loop of the model
    answers when its step budget is used up.  [daterange_never_out_of_fuel]
    shows that the budget [daterange] uses is always enough. *)
Inductive outcome (A : Type) : Type :=
  | Ok (a : A)
  | Raise (e : exn)
  | OutOfFuel.
Arguments Ok {A} a.
Arguments Raise {A} e.
Arguments OutOfFuel {A}.

Definition obind {A B} (x : outcome A) (f : A -> outcome B) : outcome B :=
  match x with
  | Ok a => f a
  | Raise e => Raise e
  | OutOfFuel => OutOfFuel
  end.

Notation "'let*' x ':=' c 'in' k" := (obind c (fun x => k))
  (at level 10, x pattern, c at level 100, k at level 200).

(** ** Dates (datetime.date, calendar) *)

Module Date.

Record date : Type := mkdate { year : Z; month : Z; day : Z }.

Definition MINYEAR : Z := 1.
Definition MAXYEAR : Z := 9999.

(** calendar.isleap *)
Definition isleap (y : Z) : bool :=
  (y mod 4 =? 0) && (negb (y mod 100 =? 0) || (y mod 400 =? 0)).

(** calendar.mdays *)
Definition mdays (m : Z) : Z :=
  match m with
  | 1 => 31 | 2 => 28 | 3 => 31 | 4 => 30 | 5 => 31 | 6 => 30
  | 7 => 31 | 8 => 31 | 9 => 30 | 10 => 31 | 11 => 30 | 12 => 31
  | _ => 0
  end.

(** mdays[month] + (month == February and isleap(year)) *)
Definition days_in_month (y m : Z) : Z :=
  mdays m + (if (m =? 2) && isleap y then 1 else 0).

(** calendar.monthrange(year, month)[1] *)
Definition monthrange (y m : Z) : outcome Z :=
  if (1 <=? m) && (m <=? 12) then Ok (days_in_month y m) else Raise ValueError.

Definition valid_date (d : date) : bool :=
  (MINYEAR <=? year d) && (year d <=? MAXYEAR) &&
  (1 <=? month d) && (month d <=? 12) &&
  (1 <=? day d) && (day d <=? days_in_month (year d) (month d)).

(** The arguments of date(...) are read as C ints. *)
Definition fits_c_int (n : Z) : bool := (- 2 ^ 31 <=? n) && (n <=? 2 ^ 31 - 1).

(** The constructor date(year, month, day): OverflowError for an argument
    that is no C int, ValueError for one out of range. *)
Definition new_date (y m d : Z) : outcome date :=
  if valid_date (mkdate y m d) then Ok (mkdate y m d)
  else if fits_c_int y && fits_c_int m && fits_c_int d then Raise ValueError
  else Raise OverflowError.

(** Comparison of dates: the tuple order on (year, month, day). *)
Definition ltb (a b : date) : bool :=
  (year a <? year b) ||
  ((year a =? year b) &&
   ((month a <? month b) || ((month a =? month b) && (day a <? day b)))).

Definition leb (a b : date) : bool := negb (ltb b a).

Definition lt (a b : date) : Prop := ltb a b = true.

(** max(a, b) and min(a, b) of Python: the first argument unless the second
    is strictly larger (smaller). *)
Definition max (a b : date) : date := if ltb a b then b else a.
Definition min (a b : date) : date := if ltb b a then b else a.

(** d + timedelta(days=1) *)
Definition succ (d : date) : outcome date :=
  if day d <? days_in_month (year d) (month d)
  then Ok (mkdate (year d) (month d) (day d + 1))
  else if month d <? 12
  then Ok (mkdate (year d) (month d + 1) 1)
  else if year d <? MAXYEAR
  then Ok (mkdate (year d + 1) 1 1)
  else Raise OverflowError.

(** The text SQLite holds for a date: sqlite3 adapts a [date] with
    [isoformat()], that is '%04d-%02d-%02d'. *)
Definition digit (n : Z) : Ascii.ascii :=
  Ascii.ascii_of_N (48 + Z.to_N (n mod 10)).

Definition pad2 (n : Z) (rest : string) : string :=
  String.String (digit (n / 10)) (String.String (digit n) rest).

Definition pad4 (n : Z) (rest : string) : string :=
  String.String (digit (n / 1000)) (String.String (digit (n / 100)) (pad2 n rest)).

Definition dash : Ascii.ascii := Ascii.ascii_of_N 45.

Definition isoformat (d : date) : string :=
  pad4 (year d)
    (String.String dash (pad2 (month d) (String.String dash (pad2 (day d) "")))).

(** A strictly monotone numbering of the valid dates, used only to bound the
    number of steps of [daterange]. *)
Definition key (d : date) : Z :=
  (year d * 12 + (month d - 1)) * 31 + (day d - 1).

End Date.

Abbreviation date := Date.date.
Abbreviation mkdate := Date.mkdate.

(** def daterange(d0, d1): the dates the generator yields, or the exception
    that ends it.  The caller's loop body cannot fail and its effect is on a
    local dictionary that is lost when the generator raises, so the list of
    yielded dates and the final outcome are all that is observable. *)
Fixpoint daterange_loop (fuel : nat) (cur d1 : date) : outcome (list date) :=
  if Date.leb cur d1 then
    match fuel with
    | O => OutOfFuel
    | S fuel' =>
        let* nxt := Date.succ cur in
        let* rest := daterange_loop fuel' nxt d1 in
        Ok (cur :: rest)
    end
  else Ok [].

Definition daterange (d0 d1 : date) : outcome (list date) :=
  daterange_loop (Z.to_nat (Date.key d1 - Date.key d0 + 1)) d0 d1.

(** ** The database *)

Definition timestamp : Type := Z.

(** A row of [vacations]. *)
Record vacation : Type := mkvacation {
  id : Z;
  employee : string;
  start_date : date;
  end_date : date;
  status : string;
  note : option string;
  created_at : timestamp;
  approved_by : option string;
  approved_at : option timestamp
}.

(** A row of [employees].  The surrogate key [id] of that table is never
    read by the program and is left out. *)
Record employee_row : Type := mkemployee {
  name : string;
  active : Z
}.

(** [vacations_seq] is the row of sqlite_sequence for [vacations]
    (AUTOINCREMENT): the largest rowid ever handed out. *)
Record db : Type := mkdb {
  vacations : list vacation;
  vacations_seq : Z;
  employees : list employee_row
}.

(** status TEXT NOT NULL CHECK(status IN ('pendiente','aprobada','rechazada')) *)
Definition status_check (s : string) : bool :=
  String.eqb s "pendiente" || String.eqb s "aprobada" || String.eqb s "rechazada".

(** A call on the store: the outcome and the database it leaves behind. *)
Definition call (A : Type) : Type := db -> outcome A * db.

(** ** Employee roster *)

Definition has_name (n : string) (e : employee_row) : bool := String.eqb (name e) n.

(** INSERT OR IGNORE INTO employees(name, active) VALUES (?,1) *)
Definition insert_or_ignore_employee (n : string) (es : list employee_row)
  : list employee_row :=
  if existsb (has_name n) es then es else es ++ [mkemployee n 1].

Definition add_employee (n : string) : call unit := fun st =>
  (Ok tt, mkdb (vacations st) (vacations_seq st)
               (insert_or_ignore_employee n (employees st))).

(** [if not seed_names: return] leaves without a statement when the
    argument is [None] or empty; otherwise one INSERT OR IGNORE per name. *)
Definition ensure_employees (seed_names : option (list string)) : call unit :=
  fun st =>
  match seed_names with
  | None | Some [] => (Ok tt, st)
  | Some names =>
      (Ok tt, mkdb (vacations st) (vacations_seq st)
                   (foldl (fun es n => insert_or_ignore_employee n es)
                          (employees st) names))
  end.

(** UPDATE employees SET active=? WHERE name=? *)
Definition set_employee_active (n : string) (a : bool) : call unit := fun st =>
  (Ok tt, mkdb (vacations st) (vacations_seq st)
               (map (fun e => if has_name n e
                              then mkemployee (name e) (if a then 1 else 0)
                              else e)
                    (employees st))).

(** The order in which SQLite answers a scan of the index of UNIQUE(name):
    the names byte by byte, a proper prefix first. *)
Fixpoint insert_by_name (n : string) (l : list string) : list string :=
  match l with
  | [] => [n]
  | x :: l' =>
      if String.leb n x then n :: x :: l' else x :: insert_by_name n l'
  end.

Definition order_by_name (l : list string) : list string :=
  foldr insert_by_name [] l.

(** SELECT name FROM employees [WHERE active=1].  There is no ORDER BY:
    with the WHERE clause SQLite scans the table, in rowid order; without it
    the query is answered from the index on name, in the order of the
    names. *)
Definition list_employees (active_only : bool) (st : db) : list string :=
  if active_only
  then map name (List.filter (fun e => active e =? 1) (employees st))
  else order_by_name (map name (employees st)).
Arguments list_employees : simpl never.

(** ** Requests *)

(** NOT (end_date < ? OR start_date > ?) *)
Definition intersects (r : vacation) (s e : date) : bool :=
  negb (Date.ltb (end_date r) s || Date.ltb e (start_date r)).

(** status IN ('aprobada','pendiente') or status IN ('aprobada') *)
Definition status_counts (include_pending : bool) (s : string) : bool :=
  if include_pending
  then String.eqb s "aprobada" || String.eqb s "pendiente"
  else String.eqb s "aprobada".

Definition has_overlap_for_employee
    (emp : string) (s e : date) (include_pending : bool) (st : db) : bool :=
  let cnt :=
    length (List.filter (fun r => String.eqb (employee r) emp
                                  && status_counts include_pending (status r)
                                  && intersects r s e)
                        (vacations st)) in
  0 <? Z.of_nat cnt.

(** The rowid SQLite picks for a new row of an AUTOINCREMENT table: one more
    than the largest rowid in the table or ever handed out. *)
Definition max_rowid (rs : list vacation) : Z :=
  foldr (fun r m => Z.max (id r) m) 0 rs.

Definition next_rowid (st : db) : Z :=
  Z.max (vacations_seq st) (max_rowid (vacations st)) + 1.

(** INSERT INTO vacations(employee, start_date, end_date, status, note)
    VALUES (?, ?, ?, 'pendiente', ?) *)
Definition create_request (now : timestamp)
    (emp : string) (s e : date) (nt : option string) : call unit := fun st =>
  let rowid := next_rowid st in
  (Ok tt,
   mkdb (vacations st ++ [mkvacation rowid emp s e "pendiente" nt now None None])
        rowid (employees st)).

(** new_status in ("aprobada","rechazada") *)
Definition is_decision (s : string) : bool :=
  String.eqb s "aprobada" || String.eqb s "rechazada".

Definition set_status (new_status : string) (approver : option string)
    (stamp : option timestamp) (r : vacation) : vacation :=
  mkvacation (id r) (employee r) (start_date r) (end_date r)
             new_status (note r) (created_at r) approver stamp.

(** A Python int is bound as a signed 64-bit INTEGER; for one that does not
    fit, sqlite3 raises OverflowError before the statement runs. *)
Definition fits_int64 (n : Z) : bool := (- 2 ^ 63 <=? n) && (n <=? 2 ^ 63 - 1).

(** UPDATE vacations SET status=?, approved_by=?, approved_at=? WHERE id=?
    The CHECK constraint is evaluated on each row the statement writes: with
    no row of that id nothing is written and nothing is checked. *)
Definition update_status (now : timestamp)
    (vacation_id : Z) (new_status : string) (approver : option string)
  : call unit := fun st =>
  let stamp := if is_decision new_status then Some now else None in
  if negb (fits_int64 vacation_id)
  then (Raise OverflowError, st)
  else if existsb (fun r => id r =? vacation_id) (vacations st)
          && negb (status_check new_status)
  then (Raise IntegrityError, st)
  else (Ok tt,
        mkdb (map (fun r => if id r =? vacation_id
                            then set_status new_status approver stamp r
                            else r)
                  (vacations st))
             (vacations_seq st) (employees st)).

(** DELETE FROM vacations WHERE id=? AND employee=? AND status='pendiente' *)
Definition own_pending (vacation_id : Z) (emp : string) (r : vacation) : bool :=
  (id r =? vacation_id) && String.eqb (employee r) emp
  && String.eqb (status r) "pendiente".

(** [if employee:] is Python truthiness: [None] and the empty string both take
    the else branch.  Both statements bind [vacation_id]. *)
Definition delete_request (vacation_id : Z) (emp : option string)
  : call unit := fun st =>
  let keep :=
    match emp with
    | Some e =>
        if negb (String.eqb e "")
        then fun r => negb (own_pending vacation_id e r)
        else fun r => negb (id r =? vacation_id)
    | None => fun r => negb (id r =? vacation_id)
    end in
  if negb (fits_int64 vacation_id)
  then (Raise OverflowError, st)
  else (Ok tt, mkdb (List.filter keep (vacations st))
                    (vacations_seq st) (employees st)).

(** ORDER BY start_date ASC *)
Fixpoint insert_by_start (r : vacation) (l : list vacation) : list vacation :=
  match l with
  | [] => [r]
  | x :: l' =>
      if Date.leb (start_date r) (start_date x)
      then r :: x :: l'
      else x :: insert_by_start r l'
  end.

Definition order_by_start (l : list vacation) : list vacation :=
  foldr insert_by_start [] l.

(** The WHERE clause list_requests builds.  [if year and month:] and
    [if status:] are truthiness tests: 0 and the empty string count as not
    given.  strftime('%Y', d) and strftime('%m', d) of a stored date are its
    year and month on four and two digits, and f"{year:04d}", f"{month:02d}"
    print the arguments the same way, so the texts are equal exactly when the
    numbers are. *)
Definition in_year_month (y m : Z) (r : vacation) : bool :=
  (Date.year (start_date r) =? y)
  && ((Date.month (start_date r) =? m) || (Date.month (end_date r) =? m)).

Definition list_requests_where
    (y m : option Z) (st : option string) (r : vacation) : bool :=
  (match y, m with
   | Some y', Some m' =>
       if negb (y' =? 0) && negb (m' =? 0) then in_year_month y' m' r else true
   | _, _ => true
   end)
  && (match st with
      | Some s => if negb (String.eqb s "") then String.eqb (status r) s else true
      | None => true
      end).

Definition list_requests (y m : option Z) (st : option string) (d : db)
  : list vacation :=
  order_by_start (List.filter (list_requests_where y m st) (vacations d)).

(** ** Calendar projector *)

(** {d: None for d in range(1, days+1)} *)
Definition empty_row (days : Z) : gmap Z (option string) :=
  list_to_map ((fun d => (d, None)) <$> seqZ 1 days).

(** {emp: {...} for emp in employees} *)
Definition empty_matrix (emps : list string) (days : Z)
  : gmap string (gmap Z (option string)) :=
  list_to_map ((fun emp => (emp, empty_row days)) <$> emps).

(** if emp in matrix: matrix[emp][d.day] = status *)
Definition mark (emp : string) (st : string)
    (mx : gmap string (gmap Z (option string))) (d : date)
  : gmap string (gmap Z (option string)) :=
  match mx !! emp with
  | Some row => <[emp := <[Date.day d := Some st]> row]> mx
  | None => mx
  end.

(** The body of [for r in rows]. *)
Definition mark_request (start end_ : date)
    (mx : gmap string (gmap Z (option string))) (r : vacation)
  : outcome (gmap string (gmap Z (option string))) :=
  let cur_s := Date.max (start_date r) start in
  let cur_e := Date.min (end_date r) end_ in
  let* ds := daterange cur_s cur_e in
  Ok (foldl (mark (employee r) (status r)) mx ds).

Fixpoint mark_requests (start end_ : date)
    (mx : gmap string (gmap Z (option string))) (rows : list vacation)
  : outcome (gmap string (gmap Z (option string))) :=
  match rows with
  | [] => Ok mx
  | r :: rows' =>
      let* mx' := mark_request start end_ mx r in
      mark_requests start end_ mx' rows'
  end.

Definition get_calendar_matrix (y m : Z) (st : db)
  : outcome (gmap string (gmap Z (option string)) * Z) :=
  let emps := list_employees true st in
  let* days := Date.monthrange y m in
  let mx0 := empty_matrix emps days in
  let* start := Date.new_date y m 1 in
  let* end_ := Date.new_date y m days in
  let rows := List.filter (fun r => intersects r start end_) (vacations st) in
  let* mx := mark_requests start end_ mx0 rows in
  Ok (mx, days).

(** app.py: the letter shown in the grid for a cell of the matrix. *)
Definition cell_letter (c : option string) : string :=
  match c with
  | Some s =>
      if String.eqb s "aprobada" then "A"
      else if String.eqb s "pendiente" then "P"
      else if String.eqb s "rechazada" then "R"
      else ""
  | None => ""
  end.

(** matrix[emp][d], when both keys are present. *)
Definition cell (mx : gmap string (gmap Z (option string))) (emp : string) (d : Z)
  : option (option string) :=
  match mx !! emp with
  | Some row => row !! d
  | None => None
  end.

(** ** Vocabulary of the statements *)

(** Every stored date is a date Python can build. *)
Definition dates_valid (st : db) : Prop :=
  forall r, In r (vacations st) ->
    Date.valid_date (start_date r) = true /\ Date.valid_date (end_date r) = true.

(** [d] lies in the inclusive range of [r]. *)
Definition covers (r : vacation) (d : date) : bool :=
  Date.leb (start_date r) d && Date.leb d (end_date r).

(** The status of the last row, in table order, of [emp] that covers [d]. *)
Fixpoint last_covering (rs : list vacation) (emp : string) (d : date)
  : option string :=
  match rs with
  | [] => None
  | r :: rs' =>
      match last_covering rs' emp d with
      | Some s => Some s
      | None =>
          if String.eqb (employee r) emp && covers r d
          then Some (status r) else None
      end
  end.

(** The employee has a row of [employees] with active=1. *)
Definition is_active (st : db) (emp : string) : Prop :=
  exists e, In e (employees st) /\ name e = emp /\ active e = 1.

Definition is_active_b (st : db) (emp : string) : bool :=
  existsb (fun e => String.eqb (name e) emp && (active e =? 1)) (employees st).

(** The store without the requests of employees that are not active. *)
Definition without_inactive_requests (st : db) : db :=
  mkdb (List.filter (fun r => is_active_b st (employee r)) (vacations st))
       (vacations_seq st) (employees st).

(** The store without its rejected requests. *)
Definition without_rejected (st : db) : db :=
  mkdb (List.filter (fun r => negb (String.eqb (status r) "rechazada"))
                    (vacations st))
       (vacations_seq st) (employees st).

(** The cell of a returned matrix; [None] when the call did not return. *)
Definition result_cell
    (o : outcome (gmap string (gmap Z (option string)) * Z))
    (emp : string) (d : Z) : option (option string) :=
  match o with
  | Ok (mx, _) => cell mx emp d
  | _ => None
  end.

(** The statement of the spec for the projector, as it is written: the call
    returns the matrix and the length of the month, every row has the day
    keys of the month, and every day of a stored request clipped to the month
    carries the status of that request. *)
Definition projector_statement (st : db) (y m : Z) : Prop :=
  exists mx days,
    get_calendar_matrix y m st = Ok (mx, days) /\
    days = Date.days_in_month y m /\
    (forall e row, mx !! e = Some row ->
       forall k, is_Some (row !! k) <-> 1 <= k <= days) /\
    (forall r, In r (vacations st) ->
       intersects r (mkdate y m 1) (mkdate y m days) = true ->
       forall d, Date.valid_date d = true ->
         Date.leb (Date.max (start_date r) (mkdate y m 1)) d = true ->
         Date.leb d (Date.min (end_date r) (mkdate y m days)) = true ->
         cell mx (employee r) (Date.day d) = Some (Some (status r))).

(** Ascending start date. *)
Definition start_le (a b : vacation) : Prop :=
  Date.leb (start_date a) (start_date b) = true.

(** The statement of the spec for a return to pending, as it is written:
    whatever approver is passed, the stored approver and approval time of the
    request are both cleared. *)
Definition reset_statement
    (now : timestamp) (st : db) (vacation_id : Z) (approver : option string)
  : Prop :=
  forall r',
    In r' (vacations (snd (update_status now vacation_id "pendiente" approver st))) ->
    id r' = vacation_id ->
    status r' = "pendiente" /\ approved_by r' = None /\ approved_at r' = None.

(** The statement of the spec for a status outside the three allowed ones, as
    it is written: for every id the call raises and the store is unchanged. *)
Definition invalid_status_statement
    (now : timestamp) (st : db) (vacation_id : Z) (new_status : string)
    (approver : option string) : Prop :=
  status_check new_status = false ->
  update_status now vacation_id new_status approver st = (Raise IntegrityError, st).

(** The row is [emp]'s own pending request number [vacation_id]. *)
Definition is_own_pending (vacation_id : Z) (emp : string) (r : vacation) : Prop :=
  id r = vacation_id /\ employee r = emp /\ status r = "pendiente".

(** The statement of the spec for a deletion on behalf of an employee, as it
    is written: no error, the rows removed are the employee's own pending
    request of that id, and without such a row the store is unchanged. *)
Definition delete_statement (st : db) (vacation_id : Z) (emp : string) : Prop :=
  fst (delete_request vacation_id (Some emp) st) = Ok tt /\
  (forall r, In r (vacations st) ->
     (In r (vacations (snd (delete_request vacation_id (Some emp) st))) <->
      ~ is_own_pending vacation_id emp r)) /\
  ((forall r, In r (vacations st) -> ~ is_own_pending vacation_id emp r) ->
   snd (delete_request vacation_id (Some emp) st) = st).

(** ** Example stores *)

(** The second example of the spec: ANA approved for March 1-5 and pending
    for March 4-6. *)
Definition ana_approved : vacation :=
  mkvacation 1 "ANA" (mkdate 2024 3 1) (mkdate 2024 3 5) "aprobada"
             None 100 (Some "BOSS") (Some 200).

Definition ana_pending : vacation :=
  mkvacation 2 "ANA" (mkdate 2024 3 4) (mkdate 2024 3 6) "pendiente"
             None 300 None None.

Definition db_overlap : db :=
  mkdb [ana_approved; ana_pending] 2 [mkemployee "ANA" 1].

(** ANA has been deactivated; her request is still stored. *)
Definition db_inactive : db :=
  mkdb [ana_approved] 1 [mkemployee "ANA" 0; mkemployee "BOB" 1].

(** A request that runs to the last day Python can represent. *)
Definition ana_9999 : vacation :=
  mkvacation 1 "ANA" (mkdate 9999 12 30) (mkdate 9999 12 31) "pendiente"
             None 100 None None.

Definition db_9999 : db := mkdb [ana_9999] 1 [mkemployee "ANA" 1].

(** The first example of the spec: ANA asks for 2024-03-30..2024-04-02. *)
Definition ana_easter : vacation :=
  mkvacation 1 "ANA" (mkdate 2024 3 30) (mkdate 2024 4 2) "pendiente"
             None 100 None None.

Definition db_easter : db :=
  mkdb [ana_easter] 1 [mkemployee "ANA" 1; mkemployee "BOB" 1].

(** A request over the turn of the year 2023/2024, and one that starts in
    March 2024 and ends in January 2025. *)
Definition ana_newyear : vacation :=
  mkvacation 1 "ANA" (mkdate 2023 12 30) (mkdate 2024 1 2) "pendiente"
             None 100 None None.

Definition bob_long : vacation :=
  mkvacation 2 "BOB" (mkdate 2024 3 15) (mkdate 2025 1 10) "pendiente"
             None 200 None None.

Definition db_newyear : db :=
  mkdb [ana_newyear; bob_long] 2 [mkemployee "ANA" 1; mkemployee "BOB" 1].

(** An inverted request of an active employee, stored next to a proper one. *)
Definition bob_inverted : vacation :=
  mkvacation 2 "BOB" (mkdate 2024 3 20) (mkdate 2024 3 10) "aprobada"
             None 200 (Some "BOSS") (Some 300).

Definition db_inverted : db :=
  mkdb [ana_easter; bob_inverted] 2 [mkemployee "ANA" 1; mkemployee "BOB" 1].

(** ** Invariants of the store *)

(** id INTEGER PRIMARY KEY AUTOINCREMENT: the ids are distinct and none is
    above the sequence, which starts at 0. *)
Definition ids_ok (st : db) : Prop :=
  NoDup (map id (vacations st)) /\
  0 <= vacations_seq st /\
  forall r, In r (vacations st) -> id r <= vacations_seq st.

(** Every stored status passes the CHECK constraint. *)
Definition statuses_ok (st : db) : Prop :=
  forall r, In r (vacations st) -> status_check (status r) = true.

(** name TEXT UNIQUE *)
Definition roster_ok (st : db) : Prop := NoDup (map name (employees st)).

(** A roster with a deactivated employee and two seed names. *)
Definition db_roster : db :=
  mkdb [] 0 [mkemployee "ANA" 0; mkemployee "BOB" 1].

(** ** app.py *)

(** The grid shown and exported: df.loc[emp, d] is the letter of
    matrix[emp][d]. *)
Definition grid (mx : gmap string (gmap Z (option string)))
  : gmap string (gmap Z string) :=
  (fun row : gmap Z (option string) => cell_letter <$> row) <$> mx.

(** What the request form answers. *)
Inductive form_result : Type :=
  | InvalidRange           (* st.error: the input is not a pair of dates *)
  | Sent (warned : bool).  (* st.success, after st.warning when warned *)

(** d0, d1 = sorted(date_range), for a pair *)
Definition sorted_pair (a b : date) : date * date :=
  if Date.ltb b a then (b, a) else (a, b).

(** The request form after "Enviar solicitud".  [employee] is the text of
    the field already in upper case, [date_range] what the date input
    holds. *)
Definition submit_request (now : timestamp)
    (emp : string) (date_range : list date) (nt : string)
  : db -> form_result * db := fun st =>
  match date_range with
  | [a; b] =>
      let '(d0, d1) := sorted_pair a b in
      let warned := has_overlap_for_employee emp d0 d1 true st in
      (Sent warned, snd (create_request now emp d0 d1 (Some nt) st))
  | _ => (InvalidRange, st)
  end.

(** "Mis solicitudes": [r for r in list_requests() if r["employee"] == user],
    with [user] the name of the session in upper case. *)
Definition my_requests (user : string) (st : db) : list vacation :=
  List.filter (fun r => String.eqb (employee r) user)
              (list_requests None None None st).

(** The "Cancelar" button is drawn for r["status"] == "pendiente" ... *)
Definition cancel_shown (r : vacation) : bool := String.eqb (status r) "pendiente".

(** ... and runs delete_request(r["id"], employee=user). *)
Definition cancel_request (user : string) (r : vacation) : call unit :=
  delete_request (id r) (Some user).

(** "Aprobaciones pendientes": list_requests(status="pendiente"), with the
    buttons "Aprobar" and "Rechazar". *)
Definition pending_requests (st : db) : list vacation :=
  list_requests None None (Some "pendiente"%string) st.

Definition approve (now : timestamp) (manager : string) (r : vacation) : call unit :=
  update_status now (id r) "aprobada" (Some manager).

Definition reject (now : timestamp) (manager : string) (r : vacation) : call unit :=
  update_status now (id r) "rechazada" (Some manager).

(** The options of the employee select box without authentication:
    [default_emp] + [e for e in emp_names if e != default_emp]. *)
Definition employee_options (emp_names : list string) : list string :=
  let default_emp :=
    match emp_names with
    | n :: _ => n
    | [] => "Empleado"%string
    end in
  default_emp :: List.filter (fun e => negb (String.eqb e default_emp)) emp_names.

(** * Proofs *)

(** ** Booleans to propositions *)

Ltac b2p :=
  repeat match goal with
  | H : _ && _ = true |- _ => apply andb_true_iff in H; destruct H
  | H : _ || _ = false |- _ => apply orb_false_iff in H; destruct H
  | H : negb _ = true |- _ => apply negb_true_iff in H
  | H : negb _ = false |- _ => apply negb_false_iff in H
  | H : (_ <? _) = true |- _ => apply Z.ltb_lt in H
  | H : (_ <? _) = false |- _ => apply Z.ltb_ge in H
  | H : (_ <=? _) = true |- _ => apply Z.leb_le in H
  | H : (_ <=? _) = false |- _ => apply Z.leb_gt in H
  | H : (_ =? _) = true |- _ => apply Z.eqb_eq in H
  | H : (_ =? _) = false |- _ => apply Z.eqb_neq in H
  end.

(** ** Dates *)

Section DateFacts.

Import Date.

Lemma days_in_month_bounds y m :
  1 <= m <= 12 -> 28 <= days_in_month y m <= 31.
Proof.
  intros Hm. unfold days_in_month.
  assert (m = 1 \/ m = 2 \/ m = 3 \/ m = 4 \/ m = 5 \/ m = 6 \/ m = 7 \/
          m = 8 \/ m = 9 \/ m = 10 \/ m = 11 \/ m = 12) as Hc by lia.
  destruct (isleap y);
    repeat (destruct Hc as [-> | Hc]; [simpl; lia |]); subst; simpl; lia.
Qed.

Lemma valid_date_spec d :
  valid_date d = true <->
  1 <= year d <= 9999 /\ 1 <= month d <= 12 /\
  1 <= day d <= days_in_month (year d) (month d).
Proof.
  unfold valid_date, MINYEAR, MAXYEAR.
  rewrite !andb_true_iff, !Z.leb_le. lia.
Qed.

Lemma date_ltb_spec a b :
  ltb a b = true <->
  year a < year b \/
  (year a = year b /\ (month a < month b \/ (month a = month b /\ day a < day b))).
Proof.
  unfold ltb.
  rewrite !orb_true_iff, !andb_true_iff, !orb_true_iff, !andb_true_iff,
    !Z.ltb_lt, !Z.eqb_eq. tauto.
Qed.

Lemma date_ltb_false_spec a b :
  ltb a b = false <->
  year b < year a \/
  (year a = year b /\ (month b < month a \/ (month a = month b /\ day b <= day a))).
Proof.
  rewrite <- not_true_iff_false, date_ltb_spec. lia.
Qed.

Lemma date_leb_spec a b :
  leb a b = true <->
  year a < year b \/
  (year a = year b /\ (month a < month b \/ (month a = month b /\ day a <= day b))).
Proof.
  unfold leb. rewrite negb_true_iff, date_ltb_false_spec. lia.
Qed.

Lemma date_leb_false_ltb a b : leb a b = false <-> ltb b a = true.
Proof. unfold leb. apply negb_false_iff. Qed.

Lemma date_eq a b :
  year a = year b -> month a = month b -> day a = day b -> a = b.
Proof. destruct a, b; simpl; congruence. Qed.

Lemma date_leb_refl a : leb a a = true.
Proof. apply date_leb_spec. lia. Qed.

Lemma date_leb_trans a b c : leb a b = true -> leb b c = true -> leb a c = true.
Proof. rewrite !date_leb_spec. lia. Qed.

Lemma date_leb_antisym a b : leb a b = true -> leb b a = true -> a = b.
Proof. rewrite !date_leb_spec. intros ? ?. apply date_eq; lia. Qed.

(** The queries compare the ISO texts of the dates byte by byte; on valid
    dates that is the comparison of the dates. *)
Lemma digit_compare a b :
  Ascii.compare (digit a) (digit b) = (a mod 10 ?= b mod 10).
Proof.
  unfold Ascii.compare, digit.
  pose proof (Z.mod_pos_bound a 10 ltac:(lia)).
  pose proof (Z.mod_pos_bound b 10 ltac:(lia)).
  rewrite !Ascii.N_ascii_embedding by lia.
  rewrite <- N2Z.inj_compare, !N2Z.inj_add, !Z2N.id by lia.
  apply Z.add_compare_mono_l.
Qed.

Lemma isoformat_ltb a b :
  valid_date a = true -> valid_date b = true ->
  String.ltb (isoformat a) (isoformat b) = ltb a b.
Proof.
  rewrite !valid_date_spec. intros (Hya & Hma & Hda) (Hyb & Hmb & Hdb).
  pose proof (days_in_month_bounds (year a) (month a) Hma).
  pose proof (days_in_month_bounds (year b) (month b) Hmb).
  unfold String.ltb, isoformat, pad4, pad2. cbn [String.compare].
  change (Ascii.compare dash dash) with Eq. cbv iota.
  repeat match goal with
  | |- context [Ascii.compare (digit ?x) (digit ?y)] =>
      rewrite (digit_compare x y);
      destruct (Z.compare_spec (x mod 10) (y mod 10))
  end;
  symmetry;
  first [ apply date_ltb_spec
        | apply not_true_iff_false; rewrite date_ltb_spec ];
  Z.to_euclidean_division_equations; lia.
Qed.

Example isoformat_examples :
  isoformat (mkdate 2024 3 5) = "2024-03-05"%string /\
  isoformat (mkdate 1 12 31) = "0001-12-31"%string.
Proof. split; reflexivity. Qed.

(** On valid dates the order is the order of [key]. *)
Lemma date_ltb_key a b :
  valid_date a = true -> valid_date b = true ->
  (ltb a b = true <-> key a < key b).
Proof.
  rewrite !valid_date_spec, date_ltb_spec. intros (Hya & Hma & Hda) (Hyb & Hmb & Hdb).
  pose proof (days_in_month_bounds (year a) (month a) Hma).
  pose proof (days_in_month_bounds (year b) (month b) Hmb).
  unfold key. lia.
Qed.

Lemma date_leb_key a b :
  valid_date a = true -> valid_date b = true ->
  (leb a b = true <-> key a <= key b).
Proof.
  intros Ha Hb. unfold leb. rewrite negb_true_iff, <- not_true_iff_false.
  rewrite (date_ltb_key b a Hb Ha). lia.
Qed.

(** The successor of a valid date is the next valid date. *)
Lemma date_succ_next d n :
  valid_date d = true -> succ d = Ok n ->
  valid_date n = true /\ ltb d n = true /\
  (forall x, valid_date x = true -> ltb d x = true -> leb n x = true).
Proof.
  intros Hd. pose proof Hd as Hv. rewrite valid_date_spec in Hv.
  destruct Hv as (Hy & Hm & Hday).
  pose proof (days_in_month_bounds (year d) (month d) Hm) as Hb.
  unfold succ.
  destruct (day d <? _) eqn:E1; [|destruct (month d <? 12) eqn:E2;
                                  [|destruct (year d <? MAXYEAR) eqn:E3]];
    intros Hn; inversion Hn; subst n; clear Hn; b2p; unfold MAXYEAR in *.
  - split; [apply valid_date_spec; simpl; lia|].
    split; [apply date_ltb_spec; simpl; lia|].
    intros x _ Hx. apply date_ltb_spec in Hx. apply date_leb_spec. simpl. lia.
  - assert (1 <= month d + 1 <= 12) as Hm' by lia.
    pose proof (days_in_month_bounds (year d) (month d + 1) Hm').
    split; [apply valid_date_spec; simpl; lia|].
    split; [apply date_ltb_spec; simpl; lia|].
    intros x Hx Hlt. apply valid_date_spec in Hx. apply date_ltb_spec in Hlt.
    apply date_leb_spec. simpl.
    destruct Hlt as [?|[Hyx [?|[Hmx ?]]]]; [lia|lia|].
    rewrite <- Hyx, <- Hmx in Hx. lia.
  - pose proof (days_in_month_bounds (year d + 1) 1 ltac:(lia)).
    split; [apply valid_date_spec; simpl; lia|].
    split; [apply date_ltb_spec; simpl; lia|].
    intros x Hx Hlt. apply valid_date_spec in Hx. apply date_ltb_spec in Hlt.
    apply date_leb_spec. simpl.
    destruct Hlt as [?|[Hyx [?|[Hmx ?]]]]; [lia|lia|].
    rewrite <- Hyx, <- Hmx in Hx. lia.
Qed.

(** date.max *)
Lemma date_succ_overflow d :
  valid_date d = true ->
  (succ d = Raise OverflowError <-> d = mkdate 9999 12 31).
Proof.
  intros Hd. pose proof Hd as Hv. rewrite valid_date_spec in Hv.
  destruct Hv as (Hy & Hm & Hday).
  pose proof (days_in_month_bounds (year d) (month d) Hm) as Hb.
  unfold succ, MAXYEAR. split.
  - destruct (day d <? _) eqn:E1; [discriminate|].
    destruct (month d <? 12) eqn:E2; [discriminate|].
    destruct (year d <? 9999) eqn:E3; [discriminate|].
    intros _. b2p.
    assert (month d = 12) as Hm12 by lia. rewrite Hm12 in *.
    assert (year d = 9999) as Hy9 by lia. rewrite Hy9 in *.
    apply date_eq; simpl; try lia.
    change (days_in_month 9999 12) with 31 in *. lia.
  - intros ->. reflexivity.
Qed.

Lemma date_succ_cases d :
  (exists n, succ d = Ok n) \/ succ d = Raise OverflowError.
Proof.
  unfold succ. repeat (match goal with |- context [if ?b then _ else _] => destruct b end); eauto.
Qed.

End DateFacts.

(** ** The generator daterange *)

Section Daterange.

Import Date.

Lemma valid_le_max d : valid_date d = true -> leb d (mkdate 9999 12 31) = true.
Proof.
  intros Hd. apply valid_date_spec in Hd. destruct Hd as (Hy & Hm & Hday).
  pose proof (days_in_month_bounds (year d) (month d) Hm).
  apply date_leb_spec. simpl. lia.
Qed.

Lemma date_leb_cases a b : leb a b = true -> a = b \/ ltb a b = true.
Proof.
  rewrite date_leb_spec, date_ltb_spec. intros H.
  destruct (Z.eq_dec (day a) (day b)); [|lia].
  destruct (Z.eq_dec (month a) (month b)); [|lia].
  destruct (Z.eq_dec (year a) (year b)); [|lia].
  left. by apply date_eq.
Qed.

Lemma daterange_loop_empty fuel cur d1 :
  leb cur d1 = false -> daterange_loop fuel cur d1 = Ok [].
Proof. intros H. destruct fuel; simpl; by rewrite H. Qed.

Lemma daterange_loop_ok fuel : forall cur d1,
  valid_date cur = true -> valid_date d1 = true ->
  (leb cur d1 = true -> d1 <> mkdate 9999 12 31) ->
  key d1 - key cur + 1 <= Z.of_nat fuel ->
  exists ds, daterange_loop fuel cur d1 = Ok ds /\
    forall x, In x ds <->
      valid_date x = true /\ leb cur x = true /\ leb x d1 = true.
Proof.
  induction fuel as [|fuel IH]; intros cur d1 Hc Hd Hmax Hfuel.
  - destruct (leb cur d1) eqn:E.
    + apply (date_leb_key cur d1 Hc Hd) in E. lia.
    + exists []. split; [by rewrite daterange_loop_empty|].
      intros x. split; [intros []|]. intros (_ & H1 & H2).
      rewrite (date_leb_trans _ _ _ H1 H2) in E. discriminate.
  - destruct (leb cur d1) eqn:E.
    2:{ exists []. split; [by rewrite daterange_loop_empty|].
        intros x. split; [intros []|]. intros (_ & H1 & H2).
        rewrite (date_leb_trans _ _ _ H1 H2) in E. discriminate. }
    simpl. rewrite E.
    destruct (date_succ_cases cur) as [[n Hn]|Hov].
    + rewrite Hn. simpl.
      destruct (date_succ_next cur n Hc Hn) as (Hvn & Hlt & Hleast).
      apply (date_ltb_key cur n Hc Hvn) in Hlt.
      destruct (IH n d1 Hvn Hd (fun _ => Hmax eq_refl) ltac:(lia)) as (ds & Hds & Hin).
      rewrite Hds. simpl. exists (cur :: ds). split; [done|].
      intros x. simpl. rewrite Hin. split.
      * intros [<-|(Hx & H1 & H2)]; [by rewrite date_leb_refl|].
        repeat split; try done.
        apply (date_leb_key cur x Hc Hx). apply (date_leb_key n x Hvn Hx) in H1. lia.
      * intros (Hx & H1 & H2).
        destruct (date_leb_cases _ _ H1) as [->|Hlt']; [by left|].
        right. auto.
    + apply (date_succ_overflow cur Hc) in Hov. subst cur.
      destruct (Hmax eq_refl). apply date_leb_antisym; [by apply valid_le_max|done].
Qed.

Lemma daterange_loop_overflow fuel : forall cur,
  valid_date cur = true ->
  key (mkdate 9999 12 31) - key cur + 1 <= Z.of_nat fuel ->
  daterange_loop fuel cur (mkdate 9999 12 31) = Raise OverflowError.
Proof.
  induction fuel as [|fuel IH]; intros cur Hc Hfuel.
  - pose proof (valid_le_max cur Hc) as E.
    apply (date_leb_key cur (mkdate 9999 12 31) Hc eq_refl) in E. lia.
  - simpl. rewrite (valid_le_max cur Hc).
    destruct (date_succ_cases cur) as [[n Hn]|Hov]; [|by rewrite Hov].
    rewrite Hn. simpl.
    destruct (date_succ_next cur n Hc Hn) as (Hvn & Hlt & _).
    apply (date_ltb_key cur n Hc Hvn) in Hlt.
    rewrite (IH n Hvn); [done|lia].
Qed.

(** Whatever the bounds, an inverted range yields nothing. *)
Lemma daterange_inverted d0 d1 : ltb d1 d0 = true -> daterange d0 d1 = Ok [].
Proof.
  intros H. apply daterange_loop_empty. unfold leb. by rewrite H.
Qed.

(** The dates yielded are the valid dates from [d0] to [d1]. *)
Lemma daterange_ok d0 d1 :
  valid_date d0 = true -> valid_date d1 = true ->
  (leb d0 d1 = true -> d1 <> mkdate 9999 12 31) ->
  exists ds, daterange d0 d1 = Ok ds /\
    forall x, In x ds <->
      valid_date x = true /\ leb d0 x = true /\ leb x d1 = true.
Proof.
  intros H0 H1 Hmax. apply daterange_loop_ok; try done. lia.
Qed.

(** Stepping past the last day of year 9999. *)
Lemma daterange_overflow d0 :
  valid_date d0 = true ->
  daterange d0 (mkdate 9999 12 31) = Raise OverflowError.
Proof.
  intros H0. apply daterange_loop_overflow; [done|lia].
Qed.

(** The step budget of [daterange] is never used up. *)
Lemma daterange_never_out_of_fuel d0 d1 :
  valid_date d0 = true -> valid_date d1 = true ->
  daterange d0 d1 <> OutOfFuel.
Proof.
  intros H0 H1.
  destruct (leb (mkdate 9999 12 31) d1) eqn:E.
  - rewrite (date_leb_antisym _ _ (valid_le_max d1 H1) E).
    by rewrite daterange_overflow.
  - assert (d1 <> mkdate 9999 12 31) as Hne by (intros ->; discriminate).
    destruct (daterange_ok d0 d1 H0 H1 (fun _ => Hne)) as (ds & -> & _). done.
Qed.

End Daterange.

(** ** Marking cells *)

Section Marking.

Implicit Types mx : gmap string (gmap Z (option string)).

Lemma mark_dom emp st mx d e :
  is_Some (mark emp st mx d !! e) <-> is_Some (mx !! e).
Proof.
  unfold mark. destruct (mx !! emp) as [row|] eqn:E; [|done].
  rewrite lookup_insert. case_decide; [|done].
  subst e. rewrite E. split; eauto.
Qed.

Lemma cell_mark emp st mx d e k :
  is_Some (mx !! e) ->
  cell (mark emp st mx d) e k =
  if String.eqb emp e && (Date.day d =? k) then Some (Some st) else cell mx e k.
Proof.
  intros [row He]. unfold mark, cell.
  destruct (String.eqb_spec emp e) as [->|Hne]; simpl.
  - rewrite He, lookup_insert_eq, lookup_insert.
    destruct (Z.eqb_spec (Date.day d) k); case_decide; done.
  - destruct (mx !! emp); [|done]. by rewrite lookup_insert_ne.
Qed.

Lemma foldl_mark_dom emp st ds : forall mx e,
  is_Some (foldl (mark emp st) mx ds !! e) <-> is_Some (mx !! e).
Proof.
  induction ds as [|d ds IH]; intros mx e; simpl; [done|].
  by rewrite IH, mark_dom.
Qed.

Lemma cell_foldl_mark emp st ds : forall mx e k,
  is_Some (mx !! e) ->
  cell (foldl (mark emp st) mx ds) e k =
  if String.eqb emp e && existsb (fun d => Date.day d =? k) ds
  then Some (Some st) else cell mx e k.
Proof.
  induction ds as [|d ds IH]; intros mx e k He; simpl.
  - by rewrite andb_false_r.
  - rewrite IH by (by apply mark_dom). rewrite cell_mark by done.
    destruct (String.eqb emp e), (Date.day d =? k), (existsb _ ds); done.
Qed.

End Marking.

(** ** The month window *)

Ltac date_lia :=
  repeat match goal with
  | H : Date.leb _ _ = true |- _ => apply date_leb_spec in H
  | H : Date.leb _ _ = false |- _ =>
      apply date_leb_false_ltb in H; apply date_ltb_spec in H
  | H : Date.ltb _ _ = true |- _ => apply date_ltb_spec in H
  | H : Date.ltb _ _ = false |- _ => apply date_ltb_false_spec in H
  | H : Date.valid_date _ = true |- _ => apply valid_date_spec in H
  end;
  rewrite ?date_leb_spec, ?date_ltb_spec, ?date_ltb_false_spec, ?valid_date_spec;
  simpl in *; lia.

Lemma date_max_lub a b x :
  Date.leb (Date.max a b) x = true <-> Date.leb a x = true /\ Date.leb b x = true.
Proof.
  unfold Date.max. destruct (Date.ltb a b) eqn:E; split.
  - intros H. split; date_lia.
  - intros [H1 H2]. done.
  - intros H. split; date_lia.
  - intros [H1 H2]. done.
Qed.

Lemma date_min_glb a b x :
  Date.leb x (Date.min a b) = true <-> Date.leb x a = true /\ Date.leb x b = true.
Proof.
  unfold Date.min. destruct (Date.ltb b a) eqn:E; split.
  - intros H. split; date_lia.
  - intros [H1 H2]. done.
  - intros H. split; date_lia.
  - intros [H1 H2]. done.
Qed.

Lemma date_max_valid a b :
  Date.valid_date a = true -> Date.valid_date b = true ->
  Date.valid_date (Date.max a b) = true.
Proof. unfold Date.max. by destruct (Date.ltb a b). Qed.

Lemma date_min_valid a b :
  Date.valid_date a = true -> Date.valid_date b = true ->
  Date.valid_date (Date.min a b) = true.
Proof. unfold Date.min. by destruct (Date.ltb b a). Qed.

Section Window.

Variables y m : Z.
Hypothesis Hy : 1 <= y <= 9999.
Hypothesis Hm : 1 <= m <= 12.

Let days := Date.days_in_month y m.
Let start := mkdate y m 1.
Let end_ := mkdate y m days.

Lemma window_days : 28 <= days <= 31.
Proof. by apply days_in_month_bounds. Qed.

Lemma window_start_valid : Date.valid_date start = true.
Proof. pose proof window_days. subst start days. date_lia. Qed.

Lemma window_end_valid : Date.valid_date end_ = true.
Proof. pose proof window_days. subst end_ days. date_lia. Qed.

(** A date of the window is a day of the month. *)
Lemma in_window x :
  Date.valid_date x = true ->
  Date.leb start x = true -> Date.leb x end_ = true ->
  x = mkdate y m (Date.day x) /\ 1 <= Date.day x <= days.
Proof.
  intros Hx H1 H2. subst start end_. split; [apply date_eq|]; date_lia.
Qed.

Lemma day_in_window k :
  1 <= k <= days ->
  Date.valid_date (mkdate y m k) = true /\
  Date.leb start (mkdate y m k) = true /\ Date.leb (mkdate y m k) end_ = true.
Proof.
  intros Hk. subst start end_ days. repeat split; date_lia.
Qed.

Lemma end_is_max : Date.leb (mkdate 9999 12 31) end_ = true -> y = 9999 /\ m = 12.
Proof. intros H. pose proof window_days as Hd. subst end_ days. date_lia. Qed.

(** The loop of a request runs over its days inside the window, unless
    stepping past its last day leaves the calendar. *)
Lemma clipped_range_ok r :
  Date.valid_date (start_date r) = true -> Date.valid_date (end_date r) = true ->
  (y = 9999 -> m = 12 -> covers r (mkdate 9999 12 31) = false) ->
  exists ds,
    daterange (Date.max (start_date r) start) (Date.min (end_date r) end_) = Ok ds /\
    forall k, existsb (fun d => Date.day d =? k) ds =
              (1 <=? k) && (k <=? days) && covers r (mkdate y m k).
Proof.
  intros Hs He Hov.
  pose proof window_start_valid as Hws. pose proof window_end_valid as Hwe.
  destruct (daterange_ok (Date.max (start_date r) start)
                         (Date.min (end_date r) end_)) as (ds & Hds & Hin).
  - by apply date_max_valid.
  - by apply date_min_valid.
  - intros Hle Heq.
    assert (Date.leb (Date.max (start_date r) start) (mkdate 9999 12 31) = true)
      as H1 by (by rewrite <- Heq).
    apply date_max_lub in H1. destruct H1 as [H1 _].
    assert (Date.leb (mkdate 9999 12 31) (Date.min (end_date r) end_) = true)
      as H2 by (rewrite Heq; apply date_leb_refl).
    apply date_min_glb in H2. destruct H2 as [H2 H3].
    destruct (end_is_max H3) as [Hy9 Hm12].
    specialize (Hov Hy9 Hm12). unfold covers in Hov.
    rewrite H1, H2 in Hov. discriminate.
  - exists ds. split; [done|]. intros k.
    apply Bool.eq_iff_eq_true.
    rewrite existsb_exists, !andb_true_iff, !Z.leb_le. unfold covers.
    rewrite andb_true_iff. split.
    + intros (x & Hx & Hk). apply Z.eqb_eq in Hk.
      apply Hin in Hx. destruct Hx as (Hvx & Hlo & Hhi).
      apply date_max_lub in Hlo. destruct Hlo as [Hlo1 Hlo2].
      apply date_min_glb in Hhi. destruct Hhi as [Hhi1 Hhi2].
      destruct (in_window x Hvx Hlo2 Hhi2) as [Hxeq Hday].
      rewrite Hk in Hxeq, Hday. rewrite <- Hxeq. fold days. auto.
    + intros ((Hk1 & Hk2) & Hc1 & Hc2).
      destruct (day_in_window k (conj Hk1 Hk2)) as (Hv & Hlo & Hhi).
      exists (mkdate y m k). split; [|simpl; apply Z.eqb_refl].
      apply Hin. split; [done|]. split.
      * by apply date_max_lub.
      * by apply date_min_glb.
Qed.

Lemma mark_request_ok mx r :
  Date.valid_date (start_date r) = true -> Date.valid_date (end_date r) = true ->
  (y = 9999 -> m = 12 -> covers r (mkdate 9999 12 31) = false) ->
  exists mx',
    mark_request start end_ mx r = Ok mx' /\
    (forall e, is_Some (mx' !! e) <-> is_Some (mx !! e)) /\
    (forall e k, is_Some (mx !! e) ->
       cell mx' e k =
       if String.eqb (employee r) e
          && ((1 <=? k) && (k <=? days) && covers r (mkdate y m k))
       then Some (Some (status r)) else cell mx e k).
Proof.
  intros Hs He Hov.
  destruct (clipped_range_ok r Hs He Hov) as (ds & Hds & Hex).
  unfold mark_request. rewrite Hds. simpl.
  eexists. split; [done|]. split.
  - intros e. apply foldl_mark_dom.
  - intros e k Hsome. rewrite cell_foldl_mark by done. by rewrite Hex.
Qed.

(** Processing the fetched rows in order: the last row of an employee that
    covers a day decides its cell. *)
Lemma mark_requests_ok rows : forall mx,
  (forall r, In r rows ->
     Date.valid_date (start_date r) = true /\ Date.valid_date (end_date r) = true) ->
  (y = 9999 -> m = 12 ->
   forall r, In r rows -> covers r (mkdate 9999 12 31) = false) ->
  exists mx',
    mark_requests start end_ mx rows = Ok mx' /\
    (forall e, is_Some (mx' !! e) <-> is_Some (mx !! e)) /\
    (forall e k, is_Some (mx !! e) -> 1 <= k <= days ->
       cell mx' e k =
       match last_covering rows e (mkdate y m k) with
       | Some s => Some (Some s)
       | None => cell mx e k
       end) /\
    (forall e k, ~ 1 <= k <= days -> cell mx' e k = cell mx e k).
Proof.
  induction rows as [|r rows IH]; intros mx Hval Hov; simpl.
  - exists mx. repeat split; auto.
  - destruct (mark_request_ok mx r) as (mx1 & Hmx1 & Hdom1 & Hcell1).
    { apply Hval. by left. }
    { apply Hval. by left. }
    { intros Hy9 Hm12. apply Hov; auto. by left. }
    rewrite Hmx1. simpl.
    destruct (IH mx1) as (mx2 & Hmx2 & Hdom2 & Hcell2 & Hout2).
    { intros r' Hr'. apply Hval. by right. }
    { intros Hy9 Hm12 r' Hr'. apply Hov; auto. by right. }
    exists mx2. split; [done|]. split; [|split].
    + intros e. by rewrite Hdom2, Hdom1.
    + intros e k Hsome Hk.
      rewrite Hcell2 by (by try apply Hdom1).
      destruct (last_covering rows e (mkdate y m k)); [done|].
      rewrite Hcell1 by done.
      destruct Hk as [Hk1 Hk2].
      apply Z.leb_le in Hk1, Hk2. rewrite Hk1, Hk2. simpl.
      by destruct (String.eqb (employee r) e), (covers r (mkdate y m k)).
    + intros e k Hk. rewrite Hout2 by done.
      destruct (mx !! e) as [row|] eqn:Hrow.
      * rewrite Hcell1 by (by rewrite Hrow).
        destruct (1 <=? k) eqn:E1; destruct (k <=? days) eqn:E2;
          rewrite ?andb_false_r; simpl; try done.
        apply Z.leb_le in E1, E2. lia.
      * unfold cell. rewrite Hrow.
        destruct (mx1 !! e) eqn:Hrow1; [|done].
        assert (is_Some (mx !! e)) as [? Hc] by (apply Hdom1; eauto).
        congruence.
Qed.

End Window.

(** ** The initial matrix *)

Lemma lookup_const_map `{Countable K} {V} (v : V) (l : list K) (k : K) :
  (list_to_map ((fun x => (x, v)) <$> l) : gmap K V) !! k =
  if decide (k ∈ l) then Some v else None.
Proof.
  induction l as [|x l IH].
  - rewrite fmap_nil, list_to_map_nil, lookup_empty.
    case_decide; [set_solver|done].
  - rewrite fmap_cons, list_to_map_cons, lookup_insert. simpl.
    destruct (decide (x = k)) as [->|Hx].
    + rewrite decide_True by (apply elem_of_cons; by left). done.
    + rewrite IH. destruct (decide (k ∈ l)) as [Hin|Hin].
      * rewrite decide_True by (apply elem_of_cons; by right). done.
      * rewrite decide_False; [done|].
        intros [?|?]%elem_of_cons; congruence.
Qed.

Lemma empty_row_lookup days k :
  empty_row days !! k = if decide (1 <= k <= days) then Some None else None.
Proof.
  unfold empty_row. rewrite lookup_const_map.
  repeat case_decide; try done; rewrite elem_of_seqZ in *; lia.
Qed.

Lemma is_active_listed st emp :
  is_active st emp <-> In emp (list_employees true st).
Proof.
  unfold is_active, list_employees. rewrite in_map_iff. split.
  - intros (e & He & Hn & Ha). exists e. split; [done|].
    apply filter_In. split; [done|]. by apply Z.eqb_eq.
  - intros (e & Hn & He). apply filter_In in He. destruct He as [He Ha].
    apply Z.eqb_eq in Ha. eauto.
Qed.

Lemma is_active_b_spec st emp : is_active_b st emp = true <-> is_active st emp.
Proof.
  unfold is_active_b, is_active. rewrite existsb_exists. split.
  - intros (e & He & Hb). apply andb_true_iff in Hb. destruct Hb as [Hn Ha].
    apply String.eqb_eq in Hn. apply Z.eqb_eq in Ha. eauto.
  - intros (e & He & Hn & Ha). exists e. split; [done|].
    apply andb_true_iff. split; [by apply String.eqb_eq | by apply Z.eqb_eq].
Qed.

Lemma empty_matrix_lookup st days e :
  empty_matrix (list_employees true st) days !! e =
  if decide (e ∈ list_employees true st) then Some (empty_row days) else None.
Proof. unfold empty_matrix. by rewrite lookup_const_map. Qed.

Lemma empty_matrix_dom st days e :
  is_Some (empty_matrix (list_employees true st) days !! e) <-> is_active st e.
Proof.
  rewrite empty_matrix_lookup, is_active_listed, <- list_elem_of_In.
  case_decide; split; done.
Qed.

Lemma empty_matrix_cell_in st days e k :
  is_active st e -> 1 <= k <= days ->
  cell (empty_matrix (list_employees true st) days) e k = Some None.
Proof.
  intros Ha Hk. unfold cell. rewrite empty_matrix_lookup.
  rewrite decide_True by (by apply list_elem_of_In, is_active_listed).
  rewrite empty_row_lookup. by rewrite decide_True.
Qed.

Lemma empty_matrix_cell_out st days e k :
  ~ (is_active st e /\ 1 <= k <= days) ->
  cell (empty_matrix (list_employees true st) days) e k = None.
Proof.
  intros Hn. unfold cell. rewrite empty_matrix_lookup.
  case_decide as Ha; [|done].
  apply list_elem_of_In, is_active_listed in Ha.
  rewrite empty_row_lookup. rewrite decide_False; [done|tauto].
Qed.

(** ** Which request decides a cell *)

Lemma covers_intersects r d s e :
  covers r d = true -> Date.leb s d = true -> Date.leb d e = true ->
  intersects r s e = true.
Proof.
  unfold covers, intersects. intros Hc Hs He.
  apply andb_true_iff in Hc. destruct Hc as [H1 H2].
  apply negb_true_iff, orb_false_iff. split; date_lia.
Qed.

Lemma last_covering_filter (f : vacation -> bool) rs emp d :
  (forall r, In r rs -> covers r d = true -> f r = true) ->
  last_covering (List.filter f rs) emp d = last_covering rs emp d.
Proof.
  induction rs as [|r rs IH]; intros Hf; simpl; [done|].
  destruct (f r) eqn:Efr; simpl.
  - rewrite IH; [done|]. intros r' Hr'. apply Hf. by right.
  - rewrite IH by (intros r' Hr'; apply Hf; by right).
    destruct (last_covering rs emp d); [done|].
    destruct (covers r d) eqn:Ec; [|by rewrite andb_false_r].
    rewrite Hf in Efr; [done|by left|done].
Qed.

Lemma last_covering_Some rs emp d s :
  last_covering rs emp d = Some s ->
  exists r, In r rs /\ employee r = emp /\ covers r d = true /\ status r = s.
Proof.
  induction rs as [|r rs IH]; simpl; [done|].
  destruct (last_covering rs emp d) as [s'|].
  - intros [= <-]. destruct (IH eq_refl) as (r' & ? & ?). eauto.
  - destruct (String.eqb (employee r) emp && covers r d) eqn:E; [|done].
    intros [= <-]. apply andb_true_iff in E. destruct E as [E1 E2].
    apply String.eqb_eq in E1. eauto 10.
Qed.

Lemma last_covering_None rs emp d :
  last_covering rs emp d = None ->
  forall r, In r rs -> employee r = emp -> covers r d = false.
Proof.
  induction rs as [|r rs IH]; simpl; [by intros _ r []|].
  destruct (last_covering rs emp d) as [s'|]; [done|].
  destruct (String.eqb (employee r) emp && covers r d) eqn:E; [done|].
  intros _ r' [<-|Hr'] Hemp; [|by apply IH].
  apply andb_false_iff in E. destruct E as [E|E]; [|done].
  apply String.eqb_neq in E. done.
Qed.

(** ** The projector returns, and what it returns *)

Lemma get_calendar_matrix_ok st y m :
  1 <= y <= 9999 -> 1 <= m <= 12 -> dates_valid st ->
  (y = 9999 -> m = 12 ->
   forall r, In r (vacations st) -> covers r (mkdate 9999 12 31) = false) ->
  exists mx,
    get_calendar_matrix y m st = Ok (mx, Date.days_in_month y m) /\
    (forall e, is_Some (mx !! e) <-> is_active st e) /\
    (forall e k, is_active st e -> 1 <= k <= Date.days_in_month y m ->
       cell mx e k = Some (last_covering (vacations st) e (mkdate y m k))) /\
    (forall e k, ~ (is_active st e /\ 1 <= k <= Date.days_in_month y m) ->
       cell mx e k = None).
Proof.
  intros Hy Hm Hval Hov.
  unfold get_calendar_matrix, Date.monthrange.
  assert ((1 <=? m) && (m <=? 12) = true) as ->
    by (apply andb_true_iff; split; apply Z.leb_le; lia).
  simpl. unfold Date.new_date.
  rewrite (window_start_valid y m Hy Hm), (window_end_valid y m Hy Hm). simpl.
  destruct (mark_requests_ok y m Hy Hm
              (List.filter (fun r => intersects r (mkdate y m 1)
                                       (mkdate y m (Date.days_in_month y m)))
                           (vacations st))
              (empty_matrix (list_employees true st) (Date.days_in_month y m)))
    as (mx & Hmx & Hdom & Hcell & Hout).
  { intros r Hr. apply filter_In in Hr. apply Hval. tauto. }
  { intros Hy9 Hm12 r Hr. apply filter_In in Hr. apply Hov; tauto. }
  rewrite Hmx. simpl. exists mx. split; [done|]. split; [|split].
  - intros e. by rewrite Hdom, empty_matrix_dom.
  - intros e k Ha Hk.
    rewrite Hcell by (by try apply empty_matrix_dom).
    destruct (day_in_window y m Hy Hm k Hk) as (_ & Hlo & Hhi).
    rewrite last_covering_filter
      by (intros r _ Hc; by apply (covers_intersects r (mkdate y m k))).
    rewrite empty_matrix_cell_in by done.
    by destruct (last_covering (vacations st) e (mkdate y m k)).
  - intros e k Hn.
    destruct (decide (is_Some (empty_matrix (list_employees true st)
                                 (Date.days_in_month y m) !! e))) as [Hs|Hs].
    + destruct (decide (1 <= k <= Date.days_in_month y m)) as [Hk|Hk].
      * apply empty_matrix_dom in Hs. tauto.
      * rewrite Hout by done. apply empty_matrix_cell_out. tauto.
    + unfold cell. destruct (mx !! e) eqn:E; [|done].
      destruct Hs. apply Hdom. eauto.
Qed.

(** ** Overlap query *)

Lemma count_positive {A} (f : A -> bool) (l : list A) :
  (0 <? Z.of_nat (length (List.filter f l))) = existsb f l.
Proof.
  induction l as [|x l IH]; simpl; [done|].
  destruct (f x); simpl; [|done].
  apply Z.ltb_lt. lia.
Qed.

Lemma existsb_filter_implied {A} (f g : A -> bool) (l : list A) :
  (forall x, f x = true -> g x = true) ->
  existsb f (List.filter g l) = existsb f l.
Proof.
  intros Hfg. induction l as [|x l IH]; simpl; [done|].
  destruct (g x) eqn:Eg; simpl; rewrite IH; [done|].
  destruct (f x) eqn:Ef; [|done].
  rewrite (Hfg x Ef) in Eg. discriminate.
Qed.

Lemma status_counts_spec include_pending s :
  status_counts include_pending s = true <->
  s = "aprobada" \/ (include_pending = true /\ s = "pendiente").
Proof.
  unfold status_counts. destruct include_pending.
  - rewrite orb_true_iff, !String.eqb_eq. tauto.
  - rewrite String.eqb_eq. split; [tauto|]. by intros [?|[? _]].
Qed.

Lemma intersects_spec r s e :
  intersects r s e = true <->
  ~ (Date.lt (end_date r) s \/ Date.lt e (start_date r)).
Proof.
  unfold intersects, Date.lt.
  rewrite negb_true_iff, orb_false_iff.
  destruct (Date.ltb (end_date r) s), (Date.ltb e (start_date r)); split.
  all: try (intros [? ?]; discriminate).
  all: try (intros H; destruct H; by auto).
  - intros _ [?|?]; discriminate.
  - done.
Qed.

(** C1.  [has_overlap_for_employee] answers true exactly when some stored
    request of the employee, approved (or pending, when pending requests are
    included), has a range that meets [s, e] in the sense
    [not (end < s or start > e)], whatever the order of [s] and [e]; rejected
    requests play no part: the answer is the same on the store without
    them. *)
Theorem has_overlap_for_employee_iff st emp s e include_pending :
  (has_overlap_for_employee emp s e include_pending st = true <->
   exists r, In r (vacations st) /\ employee r = emp /\
     (status r = "aprobada" \/
      (include_pending = true /\ status r = "pendiente")) /\
     ~ (Date.lt (end_date r) s \/ Date.lt e (start_date r)))
  /\ has_overlap_for_employee emp s e include_pending (without_rejected st) =
     has_overlap_for_employee emp s e include_pending st.
Proof.
  unfold has_overlap_for_employee. rewrite !count_positive. split.
  - rewrite existsb_exists. split.
    + intros (r & Hr & Hb).
      apply andb_true_iff in Hb. destruct Hb as [Hb Hi].
      apply andb_true_iff in Hb. destruct Hb as [He Hs].
      exists r. split; [done|].
      split; [by apply String.eqb_eq|].
      split; [by apply status_counts_spec | by apply intersects_spec].
    + intros (r & Hr & He & Hs & Hi). exists r. split; [done|].
      rewrite !andb_true_iff. split; [split|].
      * by apply String.eqb_eq.
      * by apply status_counts_spec.
      * by apply intersects_spec.
  - simpl. apply existsb_filter_implied. intros r Hb.
    apply andb_true_iff in Hb. destruct Hb as [Hb _].
    apply andb_true_iff in Hb. destruct Hb as [_ Hs].
    apply status_counts_spec in Hs.
    destruct Hs as [->|[_ ->]]; reflexivity.
Qed.

(** ** The calendar matrix *)

Lemma clipped_day y m r d :
  Date.valid_date d = true ->
  Date.leb (Date.max (start_date r) (mkdate y m 1)) d = true ->
  Date.leb d (Date.min (end_date r) (mkdate y m (Date.days_in_month y m))) = true ->
  d = mkdate y m (Date.day d) /\ 1 <= Date.day d <= Date.days_in_month y m /\
  covers r d = true.
Proof.
  intros Hd Hlo Hhi.
  apply date_max_lub in Hlo. destruct Hlo as [Hlo1 Hlo2].
  apply date_min_glb in Hhi. destruct Hhi as [Hhi1 Hhi2].
  destruct (in_window y m d Hd Hlo2 Hhi2) as [Heq Hk].
  repeat split; try done; try apply Hk.
  unfold covers. by rewrite Hlo1, Hhi1.
Qed.

Lemma cell_letter_codes :
  cell_letter (Some "aprobada") = "A" /\ cell_letter (Some "pendiente") = "P" /\
  cell_letter (Some "rechazada") = "R" /\ cell_letter None = "".
Proof. repeat split. Qed.

(** C2, as amended.  For a year and month Python can represent and a store of
    representable dates in which no request covers 9999-12-31 when December
    9999 is asked for, [get_calendar_matrix] returns the matrix and the number
    of days of the month; every row has exactly the day keys 1..days; and for
    every stored request of an active employee, each day of its range clipped
    to the month carries the status of the last stored request of that
    employee covering the day: the request's own status whenever every
    request of the employee covering that day has that status.  The grid
    shows the statuses as A, P and R. *)
Theorem get_calendar_matrix_last_wins st y m :
  1 <= y <= 9999 -> 1 <= m <= 12 -> dates_valid st ->
  (y = 9999 -> m = 12 ->
   forall r, In r (vacations st) -> covers r (mkdate 9999 12 31) = false) ->
  exists mx,
    get_calendar_matrix y m st = Ok (mx, Date.days_in_month y m) /\
    (forall e row, mx !! e = Some row ->
       forall k, is_Some (row !! k) <-> 1 <= k <= Date.days_in_month y m) /\
    (forall r, In r (vacations st) -> is_active st (employee r) ->
       forall d, Date.valid_date d = true ->
         Date.leb (Date.max (start_date r) (mkdate y m 1)) d = true ->
         Date.leb d (Date.min (end_date r)
                              (mkdate y m (Date.days_in_month y m))) = true ->
         (exists r', In r' (vacations st) /\ employee r' = employee r /\
                     covers r' d = true /\
                     last_covering (vacations st) (employee r) d = Some (status r') /\
                     cell mx (employee r) (Date.day d) = Some (Some (status r'))) /\
         ((forall r', In r' (vacations st) -> employee r' = employee r ->
                      covers r' d = true -> status r' = status r) ->
          cell mx (employee r) (Date.day d) = Some (Some (status r)))) /\
    cell_letter (Some "aprobada") = "A" /\ cell_letter (Some "pendiente") = "P" /\
    cell_letter (Some "rechazada") = "R" /\ cell_letter None = "".
Proof.
  intros Hy Hm Hval Hov.
  destruct (get_calendar_matrix_ok st y m Hy Hm Hval Hov)
    as (mx & Hres & Hdom & Hin & Hout).
  exists mx. split; [done|]. split; [|split; [|apply cell_letter_codes]].
  - intros e row Hrow k.
    assert (is_active st e) as Ha by (apply Hdom; eauto).
    assert (cell mx e k = row !! k) as Hc by (unfold cell; by rewrite Hrow).
    destruct (decide (1 <= k <= Date.days_in_month y m)) as [Hk|Hk].
    + rewrite <- Hc, Hin by done. split; eauto.
    + rewrite <- Hc, Hout by tauto. split; [by intros []|done].
  - intros r Hr Ha d Hd Hlo Hhi.
    destruct (clipped_day y m r d Hd Hlo Hhi) as (Heq & Hk & Hc).
    pose proof (Hin (employee r) (Date.day d) Ha Hk) as Hcell.
    rewrite <- Heq in Hcell.
    destruct (last_covering (vacations st) (employee r) d) as [s|] eqn:El.
    + destruct (last_covering_Some _ _ _ _ El) as (r' & Hr' & He' & Hc' & Hs').
      split.
      * exists r'. rewrite Hs'. auto.
      * intros Hall. rewrite Hcell, <- Hs'. by rewrite (Hall r').
    + pose proof (last_covering_None _ _ _ El r Hr eq_refl). congruence.
Qed.

Lemma get_calendar_matrix_last_wins_witness :
  (1 <= 2024 <= 9999 /\ 1 <= 3 <= 12 /\ dates_valid db_easter) /\
  exists mx,
    get_calendar_matrix 2024 3 db_easter = Ok (mx, 31) /\
    cell mx "ANA" 30 = Some (Some "pendiente") /\
    cell mx "ANA" 31 = Some (Some "pendiente").
Proof.
  assert (dates_valid db_easter) as Hval.
  { intros r [<-|[]]. split; reflexivity. }
  split; [split; [lia|split; [lia|exact Hval]]|].
  destruct (get_calendar_matrix_last_wins db_easter 2024 3) as
    (mx & Hres & _ & Hcells & _).
  - lia.
  - lia.
  - exact Hval.
  - intros Hy. lia.
  - exists mx. split; [exact Hres|].
    assert (is_active db_easter "ANA") as Ha.
    { exists (mkemployee "ANA" 1). simpl. auto. }
    split.
    + destruct (Hcells ana_easter (or_introl eq_refl) Ha (mkdate 2024 3 30)
                  eq_refl eq_refl eq_refl) as [_ Hown].
      apply Hown. intros r' [<-|[]] _ _. reflexivity.
    + destruct (Hcells ana_easter (or_introl eq_refl) Ha (mkdate 2024 3 31)
                  eq_refl eq_refl eq_refl) as [_ Hown].
      apply Hown. intros r' [<-|[]] _ _. reflexivity.
Defined.

(** C2 as stated fails in three ways: on the spec's own example of two
    overlapping requests of one employee the earlier request does not keep
    its days; a stored request of a deactivated employee marks nothing; and
    for December 9999 the loop steps past the last date and the call raises. *)
Lemma projector_statement_fails :
  ~ projector_statement db_overlap 2024 3 /\
  ~ projector_statement db_inactive 2024 3 /\
  ~ projector_statement db_9999 9999 12.
Proof.
  split; [|split].
  - intros (mx & days & Hres & -> & _ & Hcell).
    pose proof (Hcell ana_approved (or_introl eq_refl) eq_refl
                  (mkdate 2024 3 4) eq_refl eq_refl eq_refl) as H.
    assert (result_cell (get_calendar_matrix 2024 3 db_overlap) "ANA" 4
            = Some (Some "pendiente")) as Hc by (vm_compute; reflexivity).
    rewrite Hres in Hc. simpl in Hc, H. congruence.
  - intros (mx & days & Hres & -> & _ & Hcell).
    pose proof (Hcell ana_approved (or_introl eq_refl) eq_refl
                  (mkdate 2024 3 4) eq_refl eq_refl eq_refl) as H.
    assert (result_cell (get_calendar_matrix 2024 3 db_inactive) "ANA" 4
            = None) as Hc by (vm_compute; reflexivity).
    rewrite Hres in Hc. simpl in Hc, H. congruence.
  - intros (mx & days & Hres & _).
    assert (get_calendar_matrix 9999 12 db_9999 = Raise OverflowError) as Hc
      by (vm_compute; reflexivity).
    congruence.
Qed.

(** ** Status updates *)

Lemma db_eta st : mkdb (vacations st) (vacations_seq st) (employees st) = st.
Proof. by destruct st. Qed.

Lemma status_check_spec s :
  status_check s = true <-> s = "pendiente" \/ s = "aprobada" \/ s = "rechazada".
Proof.
  unfold status_check. rewrite !orb_true_iff, !String.eqb_eq. tauto.
Qed.

Lemma is_decision_spec s :
  is_decision s = true <-> s = "aprobada" \/ s = "rechazada".
Proof. unfold is_decision. by rewrite orb_true_iff, !String.eqb_eq. Qed.

Lemma has_id_spec vacation_id rs :
  existsb (fun r => id r =? vacation_id) rs = true <->
  exists r, In r rs /\ id r = vacation_id.
Proof.
  rewrite existsb_exists. split; intros (r & Hr & Hid); exists r;
    (split; [done|]); by apply Z.eqb_eq.
Qed.

Lemma map_other_id (f : vacation -> vacation) vacation_id rs :
  (forall r, In r rs -> id r <> vacation_id) ->
  map (fun r => if id r =? vacation_id then f r else r) rs = rs.
Proof.
  induction rs as [|r rs IH]; intros Hno; simpl; [done|].
  rewrite IH by (intros r' Hr'; apply Hno; by right).
  destruct (Z.eqb_spec (id r) vacation_id) as [Heq|_]; [|done].
  destruct (Hno r); [by left|done].
Qed.

(** An id that is no SQLite INTEGER is refused when it is bound. *)
Lemma update_status_out_of_range now st vacation_id new_status approver :
  fits_int64 vacation_id = false ->
  update_status now vacation_id new_status approver st = (Raise OverflowError, st).
Proof. intros Hfit. unfold update_status. by rewrite Hfit. Qed.

Lemma update_status_in_range now st vacation_id new_status approver :
  fits_int64 vacation_id = true ->
  update_status now vacation_id new_status approver st =
  if existsb (fun r => id r =? vacation_id) (vacations st)
     && negb (status_check new_status)
  then (Raise IntegrityError, st)
  else (Ok tt,
        mkdb (map (fun r => if id r =? vacation_id
                            then set_status new_status approver
                                   (if is_decision new_status then Some now else None) r
                            else r)
                  (vacations st))
             (vacations_seq st) (employees st)).
Proof. intros Hfit. unfold update_status. by rewrite Hfit. Qed.

(** C3, as amended.  With one of the three allowed statuses the call
    succeeds, and every request of the given id ends up with the new status,
    with the approver argument as its approver, and with the current time as
    approval time for approved and rejected, no approval time for pending; the
    other columns of the request and the other requests are as before.  The
    approver is cleared only when the approver argument is [None].  This is
    for an id that is a SQLite integer, as every stored id is; any other id
    is refused with an overflow error when it is bound, and nothing is
    written. *)
Theorem update_status_sets now st vacation_id new_status approver :
  status_check new_status = true ->
  (fits_int64 vacation_id = true ->
   exists st',
    update_status now vacation_id new_status approver st = (Ok tt, st') /\
    vacations_seq st' = vacations_seq st /\ employees st' = employees st /\
    (forall r, In r (vacations st) -> id r = vacation_id ->
       exists r', In r' (vacations st') /\ id r' = vacation_id /\
         employee r' = employee r /\ start_date r' = start_date r /\
         end_date r' = end_date r /\ note r' = note r /\
         created_at r' = created_at r) /\
    (forall r', In r' (vacations st') -> id r' = vacation_id ->
       status r' = new_status /\ approved_by r' = approver /\
       (new_status = "aprobada" \/ new_status = "rechazada" ->
        approved_at r' = Some now) /\
       (new_status = "pendiente" -> approved_at r' = None)) /\
    (forall r, id r <> vacation_id ->
       (In r (vacations st') <-> In r (vacations st)))) /\
  (fits_int64 vacation_id = false ->
   update_status now vacation_id new_status approver st
   = (Raise OverflowError, st)).
Proof.
  intros Hok. split; [|apply update_status_out_of_range].
  intros Hfit. rewrite update_status_in_range by done.
  rewrite Hok, andb_false_r.
  eexists. split; [reflexivity|]. simpl.
  split; [done|]. split; [done|]. split; [|split].
  - intros r Hr Hid.
    exists (set_status new_status approver
              (if is_decision new_status then Some now else None) r).
    split; [|by simpl].
    apply in_map_iff. exists r. split; [|done].
    by rewrite (proj2 (Z.eqb_eq _ _) Hid).
  - intros r' Hr' Hid. apply in_map_iff in Hr'.
    destruct Hr' as (r & Hmap & Hr).
    destruct (Z.eqb_spec (id r) vacation_id) as [Heq|Hne].
    + subst r'. simpl. split; [done|]. split; [done|]. split.
      * intros Hd. by rewrite (proj2 (is_decision_spec new_status) Hd).
      * intros ->. reflexivity.
    + subst r'. done.
  - intros r Hne. rewrite in_map_iff. split.
    + intros (r0 & Hmap & Hr0).
      destruct (Z.eqb_spec (id r0) vacation_id) as [Heq|_].
      * subst r. simpl in Hne. done.
      * by subst r0.
    + intros Hr. exists r. split; [|done].
      by rewrite (proj2 (Z.eqb_neq _ _) Hne).
Qed.

Lemma update_status_sets_witness :
  status_check "aprobada" = true /\ fits_int64 2 = true /\
  exists st',
    update_status 500 2 "aprobada" (Some "BOSS") db_overlap = (Ok tt, st') /\
    forall r', In r' (vacations st') -> id r' = 2 ->
      status r' = "aprobada" /\ approved_by r' = Some "BOSS" /\
      approved_at r' = Some 500.
Proof.
  split; [reflexivity|]. split; [reflexivity|].
  destruct (update_status_sets 500 db_overlap 2 "aprobada" (Some "BOSS")
              eq_refl) as [Hin _].
  destruct (Hin eq_refl) as (st' & Hres & _ & _ & _ & Hrows & _).
  exists st'. split; [exact Hres|].
  intros r' Hr' Hid.
  destruct (Hrows r' Hr' Hid) as (Hs & Hby & Hat & _).
  split; [exact Hs|]. split; [exact Hby|]. apply Hat. by left.
Defined.

(** C3 as stated fails: a return to pending with an approver given keeps that
    approver on the request. *)
Lemma reset_statement_fails : ~ reset_statement 500 db_overlap 1 (Some "BOSS").
Proof.
  intros H.
  destruct (H (mkvacation 1 "ANA" (mkdate 2024 3 1) (mkdate 2024 3 5) "pendiente"
                          None 100 (Some "BOSS") None)) as (_ & Hby & _).
  - simpl. by left.
  - reflexivity.
  - discriminate.
Qed.

(** C8, as amended.  With a status outside the three allowed ones and an id
    that is a SQLite integer: when the store holds a request of the given id,
    the call raises the integrity error and the store is unchanged; when it
    holds none, nothing is written, nothing is checked, and the call returns
    normally with the store unchanged.  An id that is no SQLite integer is
    refused with an overflow error when it is bound, before the statement
    runs, and the store is unchanged. *)
Theorem update_status_invalid now st vacation_id new_status approver :
  status_check new_status = false ->
  (fits_int64 vacation_id = true ->
   ((exists r, In r (vacations st) /\ id r = vacation_id) ->
    update_status now vacation_id new_status approver st
    = (Raise IntegrityError, st)) /\
   ((forall r, In r (vacations st) -> id r <> vacation_id) ->
    update_status now vacation_id new_status approver st = (Ok tt, st))) /\
  (fits_int64 vacation_id = false ->
   update_status now vacation_id new_status approver st
   = (Raise OverflowError, st)).
Proof.
  intros Hbad. split; [|apply update_status_out_of_range].
  intros Hfit. rewrite update_status_in_range by done.
  rewrite Hbad. simpl. split.
  - intros Hex. apply has_id_spec in Hex. by rewrite Hex.
  - intros Hno.
    destruct (existsb _ (vacations st)) eqn:Eex.
    + apply has_id_spec in Eex. destruct Eex as (r & Hr & Hid).
      by destruct (Hno r Hr).
    + simpl. rewrite map_other_id by done. by rewrite db_eta.
Qed.

Lemma update_status_invalid_witness :
  status_check "cancelada" = false /\
  update_status 500 1 "cancelada" (Some "BOSS") db_overlap
  = (Raise IntegrityError, db_overlap) /\
  update_status 500 7 "cancelada" (Some "BOSS") db_overlap = (Ok tt, db_overlap) /\
  update_status 500 (2 ^ 63) "cancelada" (Some "BOSS") db_overlap
  = (Raise OverflowError, db_overlap).
Proof.
  split; [reflexivity|].
  destruct (update_status_invalid 500 db_overlap 7 "cancelada" (Some "BOSS")
              eq_refl) as [Hin7 _].
  destruct (Hin7 eq_refl) as [_ Habsent].
  destruct (update_status_invalid 500 db_overlap 1 "cancelada" (Some "BOSS")
              eq_refl) as [Hin1 _].
  destruct (Hin1 eq_refl) as [Hpresent _].
  destruct (update_status_invalid 500 db_overlap (2 ^ 63) "cancelada"
              (Some "BOSS") eq_refl) as [_ Hout].
  split; [|split].
  - apply Hpresent. exists ana_approved. split; [by left|reflexivity].
  - apply Habsent. intros r [<-|[<-|[]]]; simpl; lia.
  - apply Hout. reflexivity.
Defined.

(** C8 as stated fails: for an id the store does not hold, an invalid status
    raises nothing. *)
Lemma invalid_status_statement_fails :
  ~ invalid_status_statement 500 db_overlap 7 "cancelada" None.
Proof.
  intros H. specialize (H eq_refl). vm_compute in H. discriminate.
Qed.

(** ** Deletion *)

Lemma own_pending_spec vacation_id emp r :
  own_pending vacation_id emp r = true <-> is_own_pending vacation_id emp r.
Proof.
  unfold own_pending, is_own_pending.
  rewrite !andb_true_iff, Z.eqb_eq, !String.eqb_eq. tauto.
Qed.

Lemma filter_all {A} (f : A -> bool) (l : list A) :
  (forall x, In x l -> f x = true) -> List.filter f l = l.
Proof.
  induction l as [|x l IH]; intros Hall; simpl; [done|].
  rewrite (Hall x) by (by left). rewrite IH; [done|].
  intros y Hy. apply Hall. by right.
Qed.

(** An id that is no SQLite INTEGER is refused when it is bound, on either
    path. *)
Lemma delete_request_out_of_range st vacation_id emp :
  fits_int64 vacation_id = false ->
  delete_request vacation_id emp st = (Raise OverflowError, st).
Proof. intros Hfit. unfold delete_request. by rewrite Hfit. Qed.

Lemma delete_request_in_range st vacation_id emp :
  fits_int64 vacation_id = true ->
  delete_request vacation_id emp st =
  (Ok tt,
   mkdb (List.filter
           (match emp with
            | Some e =>
                if negb (String.eqb e "")
                then fun r => negb (own_pending vacation_id e r)
                else fun r => negb (id r =? vacation_id)
            | None => fun r => negb (id r =? vacation_id)
            end)
           (vacations st))
        (vacations_seq st) (employees st)).
Proof. intros Hfit. unfold delete_request. by rewrite Hfit. Qed.

(** C4, as amended.  For an id that is a SQLite integer and a non-empty
    employee name the call does not fail and
    removes exactly the requests of that id that belong to the employee and
    are pending; when there is none the store is unchanged.  With no employee
    given, or with the empty name, every request of that id is removed,
    whoever owns it and whatever its status.  An id that is no SQLite integer
    is refused on either path with an overflow error when it is bound, and
    the store is unchanged.  The other tables are never touched. *)
Theorem delete_request_own_pending st vacation_id emp :
  emp <> ""%string ->
  (fits_int64 vacation_id = true ->
   (fst (delete_request vacation_id (Some emp) st) = Ok tt /\
    (forall r, In r (vacations st) ->
       (In r (vacations (snd (delete_request vacation_id (Some emp) st))) <->
        ~ is_own_pending vacation_id emp r)) /\
    ((forall r, In r (vacations st) -> ~ is_own_pending vacation_id emp r) ->
     snd (delete_request vacation_id (Some emp) st) = st)) /\
   (fst (delete_request vacation_id None st) = Ok tt /\
    (forall r, In r (vacations st) ->
       (In r (vacations (snd (delete_request vacation_id None st))) <->
        id r <> vacation_id)))) /\
  (fits_int64 vacation_id = false ->
   forall who, delete_request vacation_id who st = (Raise OverflowError, st)) /\
  delete_request vacation_id (Some ""%string) st
  = delete_request vacation_id None st /\
  (forall who,
     employees (snd (delete_request vacation_id who st)) = employees st /\
     vacations_seq (snd (delete_request vacation_id who st)) = vacations_seq st /\
     forall r, In r (vacations (snd (delete_request vacation_id who st))) ->
               In r (vacations st)).
Proof.
  intros Hemp. apply String.eqb_neq in Hemp.
  split; [|split; [|split]].
  - intros Hfit. split.
    + rewrite (delete_request_in_range st vacation_id (Some emp) Hfit).
      rewrite Hemp. simpl. split; [done|]. split.
      * intros r Hr. rewrite filter_In, negb_true_iff, <- not_true_iff_false,
          own_pending_spec. tauto.
      * intros Hnone. rewrite filter_all; [apply db_eta|].
        intros r Hr. apply negb_true_iff, not_true_iff_false.
        rewrite own_pending_spec. by apply Hnone.
    + rewrite (delete_request_in_range st vacation_id None Hfit).
      simpl. split; [done|]. intros r Hr.
      rewrite filter_In, negb_true_iff, Z.eqb_neq. tauto.
  - intros Hfit who. by apply delete_request_out_of_range.
  - reflexivity.
  - intros who. destruct (fits_int64 vacation_id) eqn:Hfit.
    + rewrite (delete_request_in_range st vacation_id who Hfit).
      simpl. split; [done|]. split; [done|].
      intros r Hr. apply filter_In in Hr. tauto.
    + by rewrite (delete_request_out_of_range st vacation_id who Hfit).
Qed.

Lemma delete_request_own_pending_witness :
  "ANA"%string <> ""%string /\
  snd (delete_request 1 (Some "ANA") db_overlap) = db_overlap /\
  ~ In ana_pending (vacations (snd (delete_request 2 (Some "ANA") db_overlap))) /\
  delete_request (2 ^ 63) (Some "ANA") db_overlap
  = (Raise OverflowError, db_overlap).
Proof.
  assert ("ANA"%string <> ""%string) as Hne by discriminate.
  split; [exact Hne|]. split; [|split].
  - destruct (delete_request_own_pending db_overlap 1 "ANA" Hne) as (Hin & _).
    destruct (Hin eq_refl) as ((_ & _ & Hsame) & _).
    apply Hsame. intros r [<-|[<-|[]]] (Hid & _ & Hst); simpl in *;
      [discriminate Hst|discriminate Hid].
  - destruct (delete_request_own_pending db_overlap 2 "ANA" Hne) as (Hin & _).
    destruct (Hin eq_refl) as ((_ & Hrows & _) & _).
    intros Hin'.
    apply (Hrows ana_pending (or_intror (or_introl eq_refl))) in Hin'.
    apply Hin'. repeat split.
  - destruct (delete_request_own_pending db_overlap (2 ^ 63) "ANA" Hne)
      as (_ & Hout & _).
    apply Hout. reflexivity.
Defined.

(** C4 as stated fails for the empty name, which Python takes as no employee
    given: an approved request of somebody else is removed.  It also fails
    for an id that is no SQLite integer: the call raises. *)
Lemma delete_statement_fails :
  ~ delete_statement db_overlap 1 "" /\
  ~ delete_statement db_overlap (2 ^ 63) "ANA".
Proof.
  split.
  - intros (_ & Hrows & _).
    destruct (Hrows ana_approved (or_introl eq_refl)) as [_ Hback].
    assert (In ana_approved
              (vacations (snd (delete_request 1 (Some ""%string) db_overlap))))
      as Hin.
    { apply Hback. intros (_ & Hemp & _). discriminate Hemp. }
    vm_compute in Hin. destruct Hin as [Heq|[]]. discriminate Heq.
  - intros (Hok & _). vm_compute in Hok. discriminate Hok.
Qed.

(** ** Listing *)

Lemma insert_by_start_In r x l :
  In x (insert_by_start r l) <-> x = r \/ In x l.
Proof.
  induction l as [|y l IH]; simpl.
  - split; [intros [<-|[]]; by left | intros [->|[]]; by left].
  - destruct (Date.leb (start_date r) (start_date y)); simpl.
    + split; [intros [<-|H]; auto | intros [->|H]; auto].
    + rewrite IH. split; [intros [<-|[->|H]]; auto | intros [->|[<-|H]]; auto].
Qed.

Lemma order_by_start_In x l : In x (order_by_start l) <-> In x l.
Proof.
  unfold order_by_start. induction l as [|y l IH]; simpl; [done|].
  rewrite insert_by_start_In, IH. split; [intros [->|?]|intros [<-|?]]; auto.
Qed.

Lemma insert_by_start_sorted r l :
  StronglySorted start_le l -> StronglySorted start_le (insert_by_start r l).
Proof.
  induction 1 as [|y l Hl IH Hy]; simpl.
  - repeat constructor.
  - destruct (Date.leb (start_date r) (start_date y)) eqn:E.
    + constructor; [by constructor|]. constructor; [done|].
      eapply Forall_impl; [exact Hy|]. intros z Hz.
      unfold start_le in *. by apply (date_leb_trans _ (start_date y)).
    + constructor; [done|].
      apply Forall_forall. intros z Hz.
      apply list_elem_of_In, insert_by_start_In in Hz. destruct Hz as [->|Hz].
      * unfold start_le. date_lia.
      * rewrite Forall_forall in Hy. apply Hy. by apply list_elem_of_In.
Qed.

Lemma order_by_start_sorted l : StronglySorted start_le (order_by_start l).
Proof.
  unfold order_by_start. induction l as [|y l IH]; simpl; [constructor|].
  by apply insert_by_start_sorted.
Qed.

(** What list_requests returns: the rows that pass the WHERE clause, by
    ascending start date. *)
Lemma list_requests_spec y m s st :
  (forall r, In r (list_requests y m s st) <->
             In r (vacations st) /\ list_requests_where y m s r = true) /\
  StronglySorted start_le (list_requests y m s st).
Proof.
  unfold list_requests. split.
  - intros r. by rewrite order_by_start_In, filter_In.
  - apply order_by_start_sorted.
Qed.

(** C5: the code does not do what the claim says.  A request that ends in
    January 2024 but starts in December 2023 is not listed for (2024, 1),
    because the year is compared with the start date only; and a request from
    March 2024 to January 2025 is listed for (2024, 1) although neither of
    its dates lies in January 2024. *)
Theorem list_requests_year_of_start_only :
  In ana_newyear (vacations db_newyear) /\
  Date.year (end_date ana_newyear) = 2024 /\
  Date.month (end_date ana_newyear) = 1 /\
  ~ In ana_newyear (list_requests (Some 2024) (Some 1) None db_newyear) /\
  list_requests (Some 2024) (Some 1) None db_newyear = [bob_long] /\
  (Date.year (start_date bob_long), Date.month (start_date bob_long)) = (2024, 3) /\
  (Date.year (end_date bob_long), Date.month (end_date bob_long)) = (2025, 1).
Proof.
  split; [by left|]. split; [done|]. split; [done|]. split.
  - simpl. intros [H|[]]. discriminate H.
  - repeat split.
Qed.

(** C7.  After create_request the unfiltered listing holds a request with the
    given employee, dates and note, in status pending; its id is new. *)
Theorem create_request_listed now emp s e nt st :
  fst (create_request now emp s e nt st) = Ok tt /\
  exists r,
    In r (list_requests None None None (snd (create_request now emp s e nt st))) /\
    employee r = emp /\ start_date r = s /\ end_date r = e /\ note r = nt /\
    status r = "pendiente" /\
    (forall r0, In r0 (vacations st) -> id r0 < id r).
Proof.
  split; [done|].
  exists (mkvacation (next_rowid st) emp s e "pendiente" nt now None None).
  split; [|repeat split].
  - apply list_requests_spec. split; [|done].
    simpl. apply in_or_app. right. by left.
  - simpl. intros r0 Hr0. unfold next_rowid.
    assert (id r0 <= max_rowid (vacations st)) as Hle.
    { clear -Hr0. induction (vacations st) as [|x l IH]; [done|].
      simpl. destruct Hr0 as [->|Hr0]; [lia|]. specialize (IH Hr0). lia. }
    lia.
Qed.

(** ** Roster *)

Lemma has_name_spec n es :
  existsb (has_name n) es = true <-> exists e, In e es /\ name e = n.
Proof.
  rewrite existsb_exists. unfold has_name.
  split; intros (e & He & Hn); exists e; (split; [done|]); by apply String.eqb_eq.
Qed.

(** C9.  add_employee twice leaves the database that add_employee once
    leaves; and when the name is already on the roster the call changes
    nothing, the active flag of that employee included, and raises nothing. *)
Theorem add_employee_idempotent st n :
  add_employee n (snd (add_employee n st)) = (Ok tt, snd (add_employee n st)) /\
  ((exists e, In e (employees st) /\ name e = n) ->
   add_employee n st = (Ok tt, st)).
Proof.
  assert (forall st', (exists e, In e (employees st') /\ name e = n) ->
                      add_employee n st' = (Ok tt, st')) as Hnoop.
  { intros st' Hex. apply has_name_spec in Hex.
    unfold add_employee, insert_or_ignore_employee. rewrite Hex.
    by rewrite db_eta. }
  split; [|apply Hnoop].
  apply Hnoop. simpl. unfold insert_or_ignore_employee.
  destruct (existsb (has_name n) (employees st)) eqn:E.
  - by apply has_name_spec.
  - exists (mkemployee n 1). split; [|done].
    apply in_or_app. right. by left.
Qed.

Lemma add_employee_idempotent_witness :
  (exists e, In e (employees db_inactive) /\ name e = "ANA"%string) /\
  add_employee "ANA" db_inactive = (Ok tt, db_inactive) /\
  add_employee "EVA" (snd (add_employee "EVA" db_inactive))
  = (Ok tt, snd (add_employee "EVA" db_inactive)).
Proof.
  assert (exists e, In e (employees db_inactive) /\ name e = "ANA"%string) as Hex.
  { exists (mkemployee "ANA" 0). split; [by left|reflexivity]. }
  split; [exact Hex|]. split.
  - exact (proj2 (add_employee_idempotent db_inactive "ANA") Hex).
  - exact (proj1 (add_employee_idempotent db_inactive "EVA")).
Defined.

(** ** Requests that mark nothing *)

Section Unmarked.

Implicit Types mx : gmap string (gmap Z (option string)).

Lemma foldl_mark_absent emp st ds : forall mx,
  mx !! emp = None -> foldl (mark emp st) mx ds = mx.
Proof.
  induction ds as [|d ds IH]; intros mx Hno; simpl; [done|].
  unfold mark at 2. rewrite Hno. by apply IH.
Qed.

Lemma mark_request_dom start end_ mx r mx' :
  mark_request start end_ mx r = Ok mx' ->
  forall e, is_Some (mx' !! e) <-> is_Some (mx !! e).
Proof.
  unfold mark_request. destruct (daterange _ _) as [ds| |]; simpl; try done.
  intros [= <-] e. apply foldl_mark_dom.
Qed.

Lemma mark_requests_dom start end_ rows : forall mx mx',
  mark_requests start end_ mx rows = Ok mx' ->
  forall e, is_Some (mx' !! e) <-> is_Some (mx !! e).
Proof.
  induction rows as [|r rows IH]; intros mx mx'; simpl.
  - by intros [= <-].
  - destruct (mark_request start end_ mx r) as [mx1| |] eqn:E1; simpl; try done.
    intros Hrest e. rewrite (IH _ _ Hrest). by apply (mark_request_dom _ _ _ _ _ E1).
Qed.

Lemma mark_request_absent start end_ mx r mx' :
  mark_request start end_ mx r = Ok mx' -> mx !! employee r = None -> mx' = mx.
Proof.
  unfold mark_request. destruct (daterange _ _) as [ds| |]; simpl; try done.
  intros [= <-] Hno. by apply foldl_mark_absent.
Qed.

(** Leaving out the rows of employees that have no row in the matrix does
    not change what the loop returns. *)
Lemma mark_requests_skip (g : string -> bool) start end_ rows : forall mx mx',
  mark_requests start end_ mx rows = Ok mx' ->
  (forall e, g e = false -> mx !! e = None) ->
  mark_requests start end_ mx (List.filter (fun r => g (employee r)) rows) = Ok mx'.
Proof.
  induction rows as [|r rows IH]; intros mx mx'; simpl; [done|].
  destruct (mark_request start end_ mx r) as [mx1| |] eqn:E1; simpl; try done.
  intros Hrest Hg.
  destruct (g (employee r)) eqn:Eg; simpl.
  - rewrite E1. simpl. apply IH; [done|].
    intros e He. apply eq_None_not_Some.
    rewrite (mark_request_dom _ _ _ _ _ E1). rewrite (Hg e He). by intros [].
  - rewrite (mark_request_absent _ _ _ _ _ E1 (Hg _ Eg)) in Hrest. by apply IH.
Qed.

Lemma mark_requests_app start end_ rows1 rows2 : forall mx,
  mark_requests start end_ mx (rows1 ++ rows2) =
  let* mx1 := mark_requests start end_ mx rows1 in
  mark_requests start end_ mx1 rows2.
Proof.
  induction rows1 as [|r rows1 IH]; intros mx; simpl; [done|].
  destruct (mark_request start end_ mx r); simpl; [apply IH|done|done].
Qed.

Lemma clip_inverted r start end_ :
  Date.ltb (end_date r) (start_date r) = true ->
  Date.ltb (Date.min (end_date r) end_) (Date.max (start_date r) start) = true.
Proof.
  intros Hinv. unfold Date.min, Date.max.
  destruct (Date.ltb end_ (end_date r)) eqn:E1;
    destruct (Date.ltb (start_date r) start) eqn:E2; date_lia.
Qed.

Lemma mark_request_inverted r start end_ mx :
  Date.ltb (end_date r) (start_date r) = true ->
  mark_request start end_ mx r = Ok mx.
Proof.
  intros Hinv. unfold mark_request.
  by rewrite (daterange_inverted _ _ (clip_inverted r start end_ Hinv)).
Qed.

End Unmarked.

Lemma filter_filter_comm {A} (f g : A -> bool) (l : list A) :
  List.filter f (List.filter g l) = List.filter g (List.filter f l).
Proof.
  induction l as [|x l IH]; simpl; [done|].
  destruct (f x) eqn:Ef, (g x) eqn:Eg; simpl; rewrite ?Ef, ?Eg, IH; done.
Qed.

(** C6.  For a representable year and month, on a store of representable
    dates where the loop does not step past 9999-12-31, the call returns; and
    whenever it returns, the matrix has a row exactly for the employees whose
    active flag is set, no cell at all for any other employee, and it is the
    matrix the call returns on the store without the requests of employees
    that are not active: those requests mark nothing. *)
Theorem get_calendar_matrix_active_rows st y m :
  (1 <= y <= 9999 -> 1 <= m <= 12 -> dates_valid st ->
   (y = 9999 -> m = 12 ->
    forall r, In r (vacations st) -> covers r (mkdate 9999 12 31) = false) ->
   exists mx, get_calendar_matrix y m st = Ok (mx, Date.days_in_month y m)) /\
  (forall mx days,
     get_calendar_matrix y m st = Ok (mx, days) ->
     (forall e, is_Some (mx !! e) <-> is_active st e) /\
     (forall e k, ~ is_active st e -> mx !! e = None /\ cell mx e k = None) /\
     get_calendar_matrix y m (without_inactive_requests st) = Ok (mx, days)).
Proof.
  split.
  - intros Hy Hm Hval Hov.
    destruct (get_calendar_matrix_ok st y m Hy Hm Hval Hov) as (mx & Hres & _).
    eauto.
  - intros mx days. unfold get_calendar_matrix.
    change (list_employees true (without_inactive_requests st))
      with (list_employees true st).
    destruct (Date.monthrange y m) as [days'| |]; simpl; try done.
    destruct (Date.new_date y m 1) as [start| |]; simpl; try done.
    destruct (Date.new_date y m days') as [end_| |]; simpl; try done.
    destruct (mark_requests start end_ _ _) as [mx'| |] eqn:Hmr; simpl; try done.
    intros [= -> ->].
    assert (forall e, is_Some (mx !! e) <-> is_active st e) as Hdom.
    { intros e. rewrite (mark_requests_dom _ _ _ _ _ Hmr).
      apply empty_matrix_dom. }
    split; [done|]. split.
    + intros e k Hna.
      assert (mx !! e = None) as Hno.
      { apply eq_None_not_Some. by rewrite Hdom. }
      split; [done|]. unfold cell. by rewrite Hno.
    + rewrite filter_filter_comm.
      rewrite (mark_requests_skip (is_active_b st) _ _ _ _ _ Hmr); [done|].
      intros e He. apply eq_None_not_Some. rewrite empty_matrix_dom.
      rewrite <- is_active_b_spec. by rewrite He.
Qed.

Lemma get_calendar_matrix_active_rows_witness :
  exists mx,
    get_calendar_matrix 2024 3 db_inactive = Ok (mx, 31) /\
    is_Some (mx !! "BOB") /\ mx !! "ANA" = None /\ cell mx "ANA" 4 = None /\
    get_calendar_matrix 2024 3 (without_inactive_requests db_inactive)
    = Ok (mx, 31).
Proof.
  destruct (get_calendar_matrix_active_rows db_inactive 2024 3) as [Hret Hout].
  destruct Hret as (mx & Hres).
  - lia.
  - lia.
  - intros r [<-|[]]. split; reflexivity.
  - intros Hy. lia.
  - exists mx. split; [exact Hres|].
    destruct (Hout mx _ Hres) as (Hdom & Hnone & Hsame).
    assert (~ is_active db_inactive "ANA") as Hana.
    { intros (e & [<-|[<-|[]]] & Hn & Ha); simpl in *; discriminate. }
    split; [|split; [|split]].
    + apply Hdom. exists (mkemployee "BOB" 1). simpl. auto.
    + exact (proj1 (Hnone "ANA"%string 4 Hana)).
    + exact (proj2 (Hnone "ANA"%string 4 Hana)).
    + exact Hsame.
Defined.

(** C10.  A stored request whose start date is after its end date: whatever
    the window, the clipped range is inverted too, the generator yields
    nothing and ends, the request leaves the matrix as it is, and the call
    returns what it returns on the store without that request.  In particular
    it returns the matrix whenever the other requests let it. *)
Theorem inverted_request_marks_nothing y m before r after seq emps :
  Date.ltb (end_date r) (start_date r) = true ->
  (forall start end_,
     daterange (Date.max (start_date r) start) (Date.min (end_date r) end_) = Ok []) /\
  (forall start end_ mx, mark_request start end_ mx r = Ok mx) /\
  get_calendar_matrix y m (mkdb (before ++ r :: after) seq emps) =
  get_calendar_matrix y m (mkdb (before ++ after) seq emps) /\
  (1 <= y <= 9999 -> 1 <= m <= 12 ->
   dates_valid (mkdb (before ++ after) seq emps) ->
   (y = 9999 -> m = 12 ->
    forall r', In r' (before ++ after) -> covers r' (mkdate 9999 12 31) = false) ->
   exists mx,
     get_calendar_matrix y m (mkdb (before ++ r :: after) seq emps)
     = Ok (mx, Date.days_in_month y m)).
Proof.
  intros Hinv.
  assert (get_calendar_matrix y m (mkdb (before ++ r :: after) seq emps) =
          get_calendar_matrix y m (mkdb (before ++ after) seq emps)) as Heq.
  { unfold get_calendar_matrix.
    change (list_employees true (mkdb (before ++ r :: after) seq emps))
      with (list_employees true (mkdb (before ++ after) seq emps)).
    destruct (Date.monthrange y m) as [days| |]; simpl; try done.
    destruct (Date.new_date y m 1) as [start| |]; simpl; try done.
    destruct (Date.new_date y m days) as [end_| |]; simpl; try done.
    rewrite !List.filter_app. simpl.
    destruct (intersects r start end_); [|done].
    rewrite !mark_requests_app.
    destruct (mark_requests start end_ _ (List.filter _ before)); simpl; try done.
    by rewrite mark_request_inverted. }
  split; [|split; [|split]].
  - intros start end_. apply daterange_inverted. by apply clip_inverted.
  - intros start end_ mx. by apply mark_request_inverted.
  - exact Heq.
  - intros Hy Hm Hval Hov. rewrite Heq.
    destruct (get_calendar_matrix_ok _ y m Hy Hm Hval Hov) as (mx & Hres & _).
    eauto.
Qed.

Lemma inverted_request_marks_nothing_witness :
  Date.ltb (end_date bob_inverted) (start_date bob_inverted) = true /\
  get_calendar_matrix 2024 3 db_inverted = get_calendar_matrix 2024 3 db_easter /\
  exists mx,
    get_calendar_matrix 2024 3 db_inverted = Ok (mx, 31) /\
    cell mx "BOB" 15 = Some None.
Proof.
  split; [reflexivity|].
  destruct (inverted_request_marks_nothing 2024 3 [ana_easter] bob_inverted []
              2 [mkemployee "ANA" 1; mkemployee "BOB" 1] eq_refl)
    as (_ & _ & Heq & Hret).
  split.
  - etransitivity; [exact Heq|]. vm_compute. reflexivity.
  - destruct Hret as (mx & Hres).
    + lia.
    + lia.
    + intros r' [<-|[]]. split; reflexivity.
    + intros Hy. lia.
    + change (get_calendar_matrix 2024 3 db_inverted = Ok (mx, 31)) in Hres.
      exists mx. split; [exact Hres|].
      assert (result_cell (get_calendar_matrix 2024 3 db_inverted) "BOB" 15
              = Some None) as Hc by (vm_compute; reflexivity).
      rewrite Hres in Hc. exact Hc.
Defined.

(** ** December 9999 *)

Lemma mark_request_overflow mx r :
  Date.valid_date (start_date r) = true -> Date.valid_date (end_date r) = true ->
  covers r (mkdate 9999 12 31) = true ->
  mark_request (mkdate 9999 12 1) (mkdate 9999 12 31) mx r = Raise OverflowError.
Proof.
  intros Hs He Hc. unfold covers in Hc.
  apply andb_true_iff in Hc. destruct Hc as [Hc1 Hc2].
  assert (end_date r = mkdate 9999 12 31) as Hend
    by (apply date_leb_antisym; [by apply valid_le_max|done]).
  unfold mark_request. rewrite Hend.
  change (Date.min (mkdate 9999 12 31) (mkdate 9999 12 31))
    with (mkdate 9999 12 31).
  rewrite daterange_overflow; [done|].
  by apply date_max_valid.
Qed.

Lemma mark_requests_overflow rows : forall mx,
  (forall r, In r rows ->
     Date.valid_date (start_date r) = true /\ Date.valid_date (end_date r) = true) ->
  (exists r, In r rows /\ covers r (mkdate 9999 12 31) = true) ->
  mark_requests (mkdate 9999 12 1) (mkdate 9999 12 31) mx rows
  = Raise OverflowError.
Proof.
  induction rows as [|r rows IH]; intros mx Hval (r0 & Hr0 & Hc0); [done|].
  simpl. destruct (Hval r (or_introl eq_refl)) as [Hs He].
  destruct (covers r (mkdate 9999 12 31)) eqn:Ec.
  - by rewrite mark_request_overflow.
  - destruct (mark_request_ok 9999 12 ltac:(lia) ltac:(lia) mx r Hs He
                (fun _ _ => Ec)) as (mx1 & Hmx1 & _).
    change (Date.days_in_month 9999 12) with 31 in Hmx1.
    rewrite Hmx1. simpl. apply IH.
    + intros r' Hr'. apply Hval. by right.
    + exists r0. split; [|done]. destruct Hr0 as [->|?]; [congruence|done].
Qed.

(** X15.  The condition on December 9999 cannot be dropped: on a store of
    representable dates, a request that covers 9999-12-31 makes the call for
    that month raise OverflowError instead of returning the matrix. *)
Lemma get_calendar_matrix_overflow st :
  dates_valid st ->
  (exists r, In r (vacations st) /\ covers r (mkdate 9999 12 31) = true) ->
  get_calendar_matrix 9999 12 st = Raise OverflowError.
Proof.
  intros Hval (r & Hr & Hc). unfold get_calendar_matrix. simpl.
  change (Date.days_in_month 9999 12) with 31. simpl.
  rewrite mark_requests_overflow; [done| |].
  - intros r' Hr'. apply filter_In in Hr'. apply Hval. tauto.
  - exists r. split; [|done]. apply filter_In. split; [done|].
    by apply (covers_intersects r (mkdate 9999 12 31)).
Qed.

(** * Further properties of the code *)

(** ** The roster *)

Lemma names_insert_or_ignore n es :
  map name (insert_or_ignore_employee n es) =
  if existsb (has_name n) es then map name es else map name es ++ [n].
Proof.
  unfold insert_or_ignore_employee.
  destruct (existsb (has_name n) es); [done|].
  by rewrite map_app.
Qed.

Lemma has_name_listed n es :
  existsb (has_name n) es = true <-> In n (map name es).
Proof.
  rewrite has_name_spec, in_map_iff. split; intros (e & H1 & H2); eauto.
Qed.

Lemma insert_or_ignore_NoDup n es :
  NoDup (map name es) -> NoDup (map name (insert_or_ignore_employee n es)).
Proof.
  intros Hnd. rewrite names_insert_or_ignore.
  destruct (existsb (has_name n) es) eqn:E; [done|].
  apply NoDup_app. split; [done|]. split.
  - intros x Hx Hn. apply list_elem_of_In in Hn. destruct Hn as [<-|[]].
    apply list_elem_of_In, has_name_listed in Hx. congruence.
  - apply NoDup_singleton.
Qed.

Lemma insert_or_ignore_keeps n es e :
  In e es -> In e (insert_or_ignore_employee n es).
Proof.
  intros He. unfold insert_or_ignore_employee.
  destruct (existsb (has_name n) es); [done|]. apply in_or_app. by left.
Qed.

Lemma insert_or_ignore_inv n es e :
  In e (insert_or_ignore_employee n es) ->
  In e es \/ (e = mkemployee n 1 /\ ~ In n (map name es)).
Proof.
  unfold insert_or_ignore_employee.
  destruct (existsb (has_name n) es) eqn:E; [by left|].
  intros [H|[<-|[]]]%in_app_or; [by left|]. right. split; [done|].
  rewrite <- has_name_listed. congruence.
Qed.

Lemma insert_or_ignore_names n es x :
  In x (map name (insert_or_ignore_employee n es)) <-> In x (map name es) \/ x = n.
Proof.
  rewrite names_insert_or_ignore.
  destruct (existsb (has_name n) es) eqn:E.
  - apply has_name_listed in E. split; [by left|]. by intros [?| ->].
  - rewrite in_app_iff. simpl. split.
    + intros [?|[<-|[]]]; auto.
    + intros [?| ->]; auto.
Qed.

Lemma seed_fold_NoDup seeds : forall es,
  NoDup (map name es) ->
  NoDup (map name (foldl (fun es n => insert_or_ignore_employee n es) es seeds)).
Proof.
  induction seeds as [|n seeds IH]; intros es Hnd; simpl; [done|].
  apply IH. by apply insert_or_ignore_NoDup.
Qed.

Lemma seed_fold_keeps seeds : forall es e,
  In e es -> In e (foldl (fun es n => insert_or_ignore_employee n es) es seeds).
Proof.
  induction seeds as [|n seeds IH]; intros es e He; simpl; [done|].
  apply IH. by apply insert_or_ignore_keeps.
Qed.

Lemma seed_fold_inv seeds : forall es e,
  In e (foldl (fun es n => insert_or_ignore_employee n es) es seeds) ->
  In e es \/ (active e = 1 /\ In (name e) seeds /\ ~ In (name e) (map name es)).
Proof.
  induction seeds as [|n seeds IH]; intros es e He; simpl in *; [by left|].
  destruct (IH _ _ He) as [H|(Ha & Hn & Hnew)].
  - destruct (insert_or_ignore_inv _ _ _ H) as [?|[-> Hfresh]]; [by left|].
    right. simpl. auto.
  - right. split; [done|]. split; [by right|].
    intros Hin. apply Hnew. apply insert_or_ignore_names. by left.
Qed.

Lemma seed_fold_names seeds : forall es x,
  In x (map name (foldl (fun es n => insert_or_ignore_employee n es) es seeds))
  <-> In x (map name es) \/ In x seeds.
Proof.
  induction seeds as [|n seeds IH]; intros es x; simpl.
  - split; [by left|]. by intros [?|[]].
  - rewrite IH, insert_or_ignore_names. split.
    + intros [[?| ->]|?]; auto.
    + intros [?|[<-|?]]; auto.
Qed.

Lemma seed_fold_present seeds : forall es,
  (forall n, In n seeds -> In n (map name es)) ->
  foldl (fun es n => insert_or_ignore_employee n es) es seeds = es.
Proof.
  induction seeds as [|n seeds IH]; intros es Hall; simpl; [done|].
  assert (insert_or_ignore_employee n es = es) as ->.
  { unfold insert_or_ignore_employee.
    assert (In n (map name es)) as Hn by (apply Hall; by left).
    by rewrite (proj2 (has_name_listed n es) Hn). }
  apply IH. intros m Hm. apply Hall. by right.
Qed.

Lemma names_set_active n (a : bool) es :
  map name (map (fun e => if has_name n e
                          then mkemployee (name e) (if a then 1 else 0)
                          else e) es) = map name es.
Proof.
  induction es as [|e es IH]; simpl; [done|].
  rewrite IH. by destruct (has_name n e).
Qed.

Lemma insert_by_name_Permutation n l : Permutation (insert_by_name n l) (n :: l).
Proof.
  induction l as [|x l IH]; simpl; [done|].
  destruct (String.leb n x); [done|].
  rewrite IH. apply Permutation_swap.
Qed.

Lemma order_by_name_Permutation l : Permutation (order_by_name l) l.
Proof.
  unfold order_by_name. induction l as [|x l IH]; simpl; [done|].
  rewrite insert_by_name_Permutation. by constructor.
Qed.

(** The listing without the filter holds the names of the roster. *)
Lemma listed_any st n :
  In n (list_employees false st) <-> In n (map name (employees st)).
Proof.
  unfold list_employees. rewrite <- !list_elem_of_In.
  by rewrite (order_by_name_Permutation (map name (employees st))).
Qed.

Lemma NoDup_map_filter {A B} (f : A -> B) (p : A -> bool) (l : list A) :
  NoDup (map f l) -> NoDup (map f (List.filter p l)).
Proof.
  induction l as [|x l IH]; simpl; [done|].
  intros [Hx Hl]%NoDup_cons. destruct (p x); simpl; [|by apply IH].
  apply NoDup_cons. split; [|by apply IH].
  intros Hin. apply Hx. apply list_elem_of_In in Hin. apply list_elem_of_In.
  apply in_map_iff in Hin. destruct Hin as (y & Hy & Hin).
  apply filter_In in Hin. apply in_map_iff. exists y. tauto.
Qed.

(** X1.  The names of the roster stay distinct under every roster operation,
    so neither listing ever shows a name twice. *)
Theorem roster_names_stay_unique st :
  roster_ok st ->
  (forall n, roster_ok (snd (add_employee n st))) /\
  (forall seeds, roster_ok (snd (ensure_employees seeds st))) /\
  (forall n a, roster_ok (snd (set_employee_active n a st))) /\
  (forall active_only, NoDup (list_employees active_only st)).
Proof.
  unfold roster_ok. intros Hnd. split; [|split; [|split]].
  - intros n. simpl. by apply insert_or_ignore_NoDup.
  - intros [[|n seeds]|]; simpl; try done.
    apply (seed_fold_NoDup seeds). by apply insert_or_ignore_NoDup.
  - intros n a. simpl. by rewrite names_set_active.
  - intros [|]; unfold list_employees.
    + by apply NoDup_map_filter.
    + by rewrite (order_by_name_Permutation (map name (employees st))).
Qed.

Lemma roster_names_stay_unique_witness :
  roster_ok db_roster /\
  roster_ok (snd (ensure_employees (Some ["ANA"; "EVA"; "EVA"]) db_roster)) /\
  NoDup (list_employees true db_roster).
Proof.
  assert (roster_ok db_roster) as Hok.
  { unfold roster_ok. simpl. apply NoDup_cons. split; [|apply NoDup_singleton].
    intros Hin. apply list_elem_of_In in Hin. destruct Hin as [Heq|[]].
    discriminate Heq. }
  destruct (roster_names_stay_unique db_roster Hok) as (_ & Hseed & _ & Hlist).
  split; [exact Hok|]. split; [apply Hseed | apply Hlist].
Defined.

Lemma listed_active st n :
  In n (list_employees true st) <-> In (mkemployee n 1) (employees st).
Proof.
  rewrite <- is_active_listed. unfold is_active. split.
  - intros (e & He & <- & Ha). destruct e as [m a]. simpl in *. by subst.
  - intros H. exists (mkemployee n 1). auto.
Qed.

(** X2.  add_employee puts the name on the roster and keeps every existing
    row as it is.  A new name comes in active; a name that is already there
    but deactivated is not reactivated. *)
Theorem add_employee_keeps_flags st n :
  roster_ok st ->
  (forall e, In e (employees st) -> In e (employees (snd (add_employee n st)))) /\
  In n (list_employees false (snd (add_employee n st))) /\
  (~ In n (list_employees false st) ->
   In n (list_employees true (snd (add_employee n st)))) /\
  (In (mkemployee n 0) (employees st) ->
   ~ In n (list_employees true (snd (add_employee n st)))) /\
  vacations (snd (add_employee n st)) = vacations st.
Proof.
  intros Hok. split; [|split; [|split; [|split]]].
  - intros e He. simpl. by apply insert_or_ignore_keeps.
  - apply listed_any. simpl. apply insert_or_ignore_names. by right.
  - rewrite listed_any. intros Hnew.
    apply listed_active. simpl. unfold insert_or_ignore_employee.
    destruct (existsb (has_name n) (employees st)) eqn:E.
    + apply has_name_listed in E. done.
    + apply in_or_app. right. by left.
  - intros Hoff Hon. apply listed_active in Hon. simpl in Hon.
    assert (insert_or_ignore_employee n (employees st) = employees st) as Hsame.
    { unfold insert_or_ignore_employee.
      assert (existsb (has_name n) (employees st) = true) as ->; [|done].
      apply has_name_spec. exists (mkemployee n 0). auto. }
    rewrite Hsame in Hon. clear Hsame.
    unfold roster_ok in Hok.
    induction (employees st) as [|e es IH]; [done|].
    simpl in Hok. apply NoDup_cons in Hok. destruct Hok as [Hfresh Hnd].
    destruct Hoff as [->|Hoff], Hon as [Heq|Hon]; try discriminate.
    + apply Hfresh. apply list_elem_of_In, in_map_iff.
      exists (mkemployee n 1). auto.
    + subst e. apply Hfresh. apply list_elem_of_In, in_map_iff.
      exists (mkemployee n 0). auto.
    + by apply IH.
  - done.
Qed.

Lemma add_employee_keeps_flags_witness :
  roster_ok db_roster /\
  ~ In "ANA"%string (list_employees true (snd (add_employee "ANA" db_roster))) /\
  In "EVA"%string (list_employees true (snd (add_employee "EVA" db_roster))).
Proof.
  assert (roster_ok db_roster) as Hok.
  { unfold roster_ok. simpl. apply NoDup_cons. split; [|apply NoDup_singleton].
    intros Hin. apply list_elem_of_In in Hin. destruct Hin as [Heq|[]].
    discriminate Heq. }
  split; [exact Hok|]. split.
  - destruct (add_employee_keeps_flags db_roster "ANA" Hok) as (_ & _ & _ & Hoff & _).
    apply Hoff. by left.
  - destruct (add_employee_keeps_flags db_roster "EVA" Hok) as (_ & _ & Hnew & _).
    apply Hnew. vm_compute. intros [H|[H|[]]]; discriminate H.
Defined.

Lemma set_active_rows n (a : bool) es e :
  In e (map (fun e => if has_name n e
                      then mkemployee (name e) (if a then 1 else 0)
                      else e) es) <->
  (name e = n /\ active e = (if a then 1 else 0) /\ In n (map name es)) \/
  (name e <> n /\ In e es).
Proof.
  rewrite in_map_iff. unfold has_name. split.
  - intros (x & Hx & Hin).
    destruct (String.eqb_spec (name x) n) as [Hn|Hn].
    + subst e. simpl. left. split; [done|]. split; [done|].
      apply in_map_iff. eauto.
    + subst e. by right.
  - intros [(Hn & Ha & Hin)|(Hn & Hin)].
    + apply in_map_iff in Hin. destruct Hin as (x & Hx & Hin).
      exists x. split; [|done]. rewrite (proj2 (String.eqb_eq _ _) Hx).
      destruct e as [m b]. simpl in *. by subst.
    + exists e. split; [|done]. by rewrite (proj2 (String.eqb_neq _ _) Hn).
Qed.

(** X3.  set_employee_active changes the flag of the named employee and
    nothing else: the full listing is the same, the active listing gains or
    loses exactly that name, an unknown name changes nothing, and of two
    calls for one name the later one decides. *)
Theorem set_employee_active_listing st n a :
  list_employees false (snd (set_employee_active n a st)) = list_employees false st /\
  (forall m, In m (list_employees true (snd (set_employee_active n a st))) <->
     (m = n /\ a = true /\ In n (list_employees false st)) \/
     (m <> n /\ In m (list_employees true st))) /\
  (~ In n (list_employees false st) -> snd (set_employee_active n a st) = st) /\
  (forall b, snd (set_employee_active n b (snd (set_employee_active n a st)))
             = snd (set_employee_active n b st)) /\
  vacations (snd (set_employee_active n a st)) = vacations st.
Proof.
  split; [|split; [|split; [|split]]].
  - unfold list_employees. simpl. by rewrite names_set_active.
  - intros m. rewrite !listed_active, listed_any. simpl.
    rewrite set_active_rows. simpl. split.
    + intros [(<- & Ha & Hin)|(Hn & Hin)]; [|by right].
      left. split; [done|]. split; [|done]. by destruct a.
    + intros [(-> & -> & Hin)|(Hn & Hin)]; [by left|by right].
  - rewrite listed_any. intros Hno. simpl.
    rewrite <- (db_eta st) at 4. f_equal.
    induction (employees st) as [|e es IH]; simpl; [done|].
    simpl in Hno. unfold has_name at 1.
    destruct (String.eqb_spec (name e) n) as [Hn|Hn]; [tauto|].
    f_equal. apply IH. tauto.
  - intros b. simpl. f_equal. rewrite map_map. apply map_ext. intros e.
    unfold has_name. destruct (String.eqb_spec (name e) n) as [Hn|Hn]; simpl.
    + by rewrite (proj2 (String.eqb_eq _ _) Hn).
    + by rewrite (proj2 (String.eqb_neq _ _) Hn).
  - done.
Qed.

(** X4.  ensure_employees with no names, or with an empty list, does nothing.
    With names it adds the missing ones as active employees and keeps every
    existing row, so a seeded employee who was deactivated stays deactivated;
    running it again with the same names changes nothing. *)
Theorem ensure_employees_seeds st seeds :
  ensure_employees None st = (Ok tt, st) /\
  ensure_employees (Some []) st = (Ok tt, st) /\
  fst (ensure_employees (Some seeds) st) = Ok tt /\
  (forall n, In n (list_employees false (snd (ensure_employees (Some seeds) st)))
             <-> In n (list_employees false st) \/ In n seeds) /\
  (forall e, In e (employees st) ->
             In e (employees (snd (ensure_employees (Some seeds) st)))) /\
  (forall e, In e (employees (snd (ensure_employees (Some seeds) st))) ->
             In e (employees st) \/
             (active e = 1 /\ In (name e) seeds /\
              ~ In (name e) (list_employees false st))) /\
  snd (ensure_employees (Some seeds) (snd (ensure_employees (Some seeds) st)))
  = snd (ensure_employees (Some seeds) st) /\
  vacations (snd (ensure_employees (Some seeds) st)) = vacations st.
Proof.
  split; [done|]. split; [done|].
  assert (snd (ensure_employees (Some seeds) st) =
          mkdb (vacations st) (vacations_seq st)
               (foldl (fun es n => insert_or_ignore_employee n es)
                      (employees st) seeds)) as Hst.
  { destruct seeds; simpl; [by rewrite db_eta|done]. }
  split; [by destruct seeds|].
  split; [|split; [|split; [|split]]].
  - intros n. rewrite !listed_any, Hst. apply seed_fold_names.
  - rewrite Hst. apply seed_fold_keeps.
  - intros e. rewrite listed_any, Hst. apply seed_fold_inv.
  - destruct seeds as [|n seeds]; [done|].
    unfold ensure_employees. cbn [snd vacations vacations_seq employees].
    f_equal. apply seed_fold_present.
    intros m Hm. apply seed_fold_names. by right.
  - by rewrite Hst.
Qed.

(** ** Ids and statuses *)

Lemma max_rowid_ge rs r : In r rs -> id r <= max_rowid rs.
Proof.
  induction rs as [|x rs IH]; simpl; [done|].
  intros [->|Hr]; [lia|]. specialize (IH Hr). lia.
Qed.








(** X6.  No operation ever leaves a status outside the three allowed ones in
    the store: create_request writes 'pendiente', update_status with another
    text either finds no request or is refused, delete_request only removes. *)
Theorem statuses_stay_valid st :
  statuses_ok st ->
  (forall now emp s e nt, statuses_ok (snd (create_request now emp s e nt st))) /\
  (forall now v new_status approver,
     statuses_ok (snd (update_status now v new_status approver st))) /\
  (forall v who, statuses_ok (snd (delete_request v who st))).
Proof.
  intros Hok. split; [|split].
  - intros now emp s e nt r [Hr|[<-|[]]]%in_app_or; [by apply Hok|done].
  - intros now v new_status approver.
    destruct (fits_int64 v) eqn:Hfit;
      [rewrite update_status_in_range by done
      |by rewrite update_status_out_of_range].
    destruct (existsb (fun r => id r =? v) (vacations st)) eqn:Eex;
      destruct (status_check new_status) eqn:Est; simpl; try done.
    + intros r Hr. apply in_map_iff in Hr. destruct Hr as (x & Hx & Hin).
      destruct (id x =? v); subst r; [done|by apply Hok].
    + intros r Hr. apply in_map_iff in Hr. destruct Hr as (x & Hx & Hin).
      destruct (id x =? v); subst r; [done|by apply Hok].
    + intros r Hr. apply in_map_iff in Hr. destruct Hr as (x & Hx & Hin).
      destruct (Z.eqb_spec (id x) v) as [Hid|Hid]; subst r; [|by apply Hok].
      assert (existsb (fun r => id r =? v) (vacations st) = true) as Habs
        by (apply has_id_spec; eauto).
      congruence.
  - intros v who.
    destruct (fits_int64 v) eqn:Hfit;
      [rewrite delete_request_in_range by done
      |by rewrite delete_request_out_of_range].
    intros r Hr. simpl in Hr. apply filter_In in Hr. apply Hok. tauto.
Qed.

Lemma statuses_stay_valid_witness :
  statuses_ok db_overlap /\
  statuses_ok (snd (update_status 900 1 "cancelada" None db_overlap)) /\
  statuses_ok (snd (update_status 900 7 "cancelada" None db_overlap)).
Proof.
  assert (statuses_ok db_overlap) as Hok.
  { intros r [<-|[<-|[]]]; reflexivity. }
  destruct (statuses_stay_valid db_overlap Hok) as (_ & Hupd & _).
  split; [exact Hok|]. split; apply Hupd.
Defined.

(** X7.  Of two status updates of one request the later one decides: the
    store after both is the store after the second alone. *)
Theorem update_status_last_wins st v now1 s1 a1 now2 s2 a2 :
  status_check s1 = true -> status_check s2 = true ->
  update_status now2 v s2 a2 (snd (update_status now1 v s1 a1 st))
  = update_status now2 v s2 a2 st.
Proof.
  intros H1 H2. destruct (fits_int64 v) eqn:Hfit.
  2:{ by rewrite !update_status_out_of_range. }
  rewrite !update_status_in_range by done. rewrite H1, H2, !andb_false_r.
  cbn [snd vacations vacations_seq employees]. f_equal. f_equal.
  rewrite map_map. apply map_ext. intros r.
  destruct (Z.eqb_spec (id r) v) as [Hid|Hid]; simpl.
  - by rewrite (proj2 (Z.eqb_eq _ _) Hid).
  - by rewrite (proj2 (Z.eqb_neq _ _) Hid).
Qed.

Lemma update_status_last_wins_witness :
  update_status 900 1 "pendiente" None
    (snd (update_status 800 1 "rechazada" (Some "BOSS") db_overlap))
  = update_status 900 1 "pendiente" None db_overlap.
Proof.
  exact (update_status_last_wins db_overlap 1 800 "rechazada" (Some "BOSS"%string)
           900 "pendiente" None eq_refl eq_refl).
Defined.

(** X8.  Once a request is approved or rejected its employee can no longer
    delete it: the deletion on behalf of an employee leaves the store as the
    decision left it.  The deletion returns normally for an id that is a
    SQLite integer, as stored ids are, and raises the overflow error of the
    binding for any other. *)
Theorem decided_request_not_deletable st v now new_status approver emp :
  is_decision new_status = true -> emp <> ""%string ->
  delete_request v (Some emp) (snd (update_status now v new_status approver st))
  = (if fits_int64 v then Ok tt else Raise OverflowError,
     snd (update_status now v new_status approver st)).
Proof.
  intros Hdec Hemp. apply String.eqb_neq in Hemp.
  assert (status_check new_status = true) as Hok.
  { apply status_check_spec. apply is_decision_spec in Hdec. tauto. }
  assert (String.eqb new_status "pendiente" = false) as Hnp.
  { apply is_decision_spec in Hdec. by destruct Hdec as [-> | ->]. }
  destruct (fits_int64 v) eqn:Hfit.
  2:{ by rewrite delete_request_out_of_range, update_status_out_of_range. }
  rewrite delete_request_in_range by done. rewrite Hemp. cbn [negb]. f_equal.
  rewrite filter_all; [apply db_eta|].
  intros r Hr. apply negb_true_iff. unfold own_pending.
  rewrite update_status_in_range in Hr by done. rewrite Hok, andb_false_r in Hr.
  simpl in Hr. apply in_map_iff in Hr. destruct Hr as (x & Hx & Hin).
  destruct (Z.eqb_spec (id x) v) as [Hid|Hid]; subst r; simpl.
  - by rewrite Hnp, andb_false_r.
  - by rewrite (proj2 (Z.eqb_neq _ _) Hid).
Qed.

Lemma decided_request_not_deletable_witness :
  delete_request 2 (Some "ANA")
    (snd (update_status 900 2 "aprobada" (Some "BOSS") db_overlap))
  = (Ok tt, snd (update_status 900 2 "aprobada" (Some "BOSS") db_overlap)).
Proof.
  apply (decided_request_not_deletable db_overlap 2 900 "aprobada"
           (Some "BOSS"%string) "ANA"); [reflexivity|discriminate].
Defined.

Lemma filter_idem {A} (f : A -> bool) (l : list A) :
  List.filter f (List.filter f l) = List.filter f l.
Proof.
  apply filter_all. intros x Hx. apply filter_In in Hx. tauto.
Qed.

(** X9.  Deleting the same request twice is deleting it once: the second
    call answers as the first and leaves the store the first left, with no
    error when the id is a SQLite integer; and two deletions give the same
    store in either order. *)
Theorem delete_request_twice st v who v' who' :
  delete_request v who (snd (delete_request v who st)) = delete_request v who st /\
  (fits_int64 v = true ->
   delete_request v who (snd (delete_request v who st))
   = (Ok tt, snd (delete_request v who st))) /\
  snd (delete_request v who (snd (delete_request v' who' st)))
  = snd (delete_request v' who' (snd (delete_request v who st))).
Proof.
  assert (delete_request v who (snd (delete_request v who st))
          = delete_request v who st) as Hsame.
  { destruct (fits_int64 v) eqn:Hfit.
    - rewrite !delete_request_in_range by done.
      cbn [snd vacations vacations_seq employees]. by rewrite filter_idem.
    - by rewrite !delete_request_out_of_range. }
  split; [exact Hsame|]. split.
  - intros Hfit. rewrite Hsame. by rewrite delete_request_in_range.
  - destruct (fits_int64 v) eqn:Hfit, (fits_int64 v') eqn:Hfit';
      rewrite ?(delete_request_in_range _ v) by done;
      rewrite ?(delete_request_in_range _ v') by done;
      rewrite ?(delete_request_out_of_range _ v) by done;
      rewrite ?(delete_request_out_of_range _ v') by done;
      cbn [snd vacations vacations_seq employees]; try done.
    by rewrite filter_filter_comm.
Qed.

Lemma delete_request_twice_witness :
  fits_int64 2 = true /\
  delete_request 2 None (snd (delete_request 2 None db_overlap))
  = (Ok tt, snd (delete_request 2 None db_overlap)).
Proof.
  split; [reflexivity|].
  destruct (delete_request_twice db_overlap 2 None 1 None) as (_ & Hok & _).
  exact (Hok eq_refl).
Defined.

(** X10.  What a new request changes in the overlap query: the answer for
    any employee and range afterwards is the answer before, or true when the
    query counts pending requests, is for the same employee, and meets the
    new range.  So a request with start <= end overlaps itself, one with
    start > end does not, and the query without pending requests never sees
    a new request. *)
Theorem has_overlap_after_create now emp s e nt st emp' s' e' include_pending :
  (has_overlap_for_employee emp' s' e' include_pending
     (snd (create_request now emp s e nt st))
   = has_overlap_for_employee emp' s' e' include_pending st
     || (String.eqb emp emp' && include_pending
         && negb (Date.ltb e s' || Date.ltb e' s))) /\
  has_overlap_for_employee emp s e true (snd (create_request now emp s e nt st))
  = has_overlap_for_employee emp s e true st || Date.leb s e /\
  has_overlap_for_employee emp' s' e' false (snd (create_request now emp s e nt st))
  = has_overlap_for_employee emp' s' e' false st.
Proof.
  assert (forall emp' s' e' ip,
    has_overlap_for_employee emp' s' e' ip (snd (create_request now emp s e nt st))
    = has_overlap_for_employee emp' s' e' ip st
      || (String.eqb emp emp' && ip && negb (Date.ltb e s' || Date.ltb e' s)))
    as Hgen.
  { intros emp0 s0 e0 ip. unfold has_overlap_for_employee.
    rewrite !count_positive. simpl. rewrite existsb_app. simpl.
    rewrite orb_false_r. f_equal. unfold intersects, status_counts. simpl.
    destruct ip; simpl; [done|]. by rewrite andb_false_r. }
  split; [apply Hgen|]. split.
  - rewrite Hgen. f_equal. rewrite String.eqb_refl. simpl.
    unfold Date.leb. by rewrite orb_diag.
  - rewrite Hgen. by rewrite andb_false_r, orb_false_r.
Qed.

(** ** Listing, again *)

Lemma insert_by_start_Permutation r l : Permutation (insert_by_start r l) (r :: l).
Proof.
  induction l as [|x l IH]; simpl; [done|].
  destruct (Date.leb (start_date r) (start_date x)); [done|].
  rewrite IH. apply Permutation_swap.
Qed.

Lemma order_by_start_Permutation l : Permutation (order_by_start l) l.
Proof.
  unfold order_by_start. induction l as [|x l IH]; simpl; [done|].
  rewrite insert_by_start_Permutation. by constructor.
Qed.

(** X11.  list_requests returns each request that passes its filters exactly
    once, the requests ordered by start date ascending; it never returns more
    rows than the table holds. *)
Theorem list_requests_sorted_permutation y m s st :
  Permutation (list_requests y m s st)
              (List.filter (list_requests_where y m s) (vacations st)) /\
  StronglySorted start_le (list_requests y m s st) /\
  (length (list_requests y m s st) <= length (vacations st))%nat.
Proof.
  unfold list_requests. split; [apply order_by_start_Permutation|].
  split; [apply order_by_start_sorted|].
  rewrite (Permutation_length (order_by_start_Permutation _)).
  apply List.filter_length_le.
Qed.

(** X12.  The date filter of list_requests needs both a year and a month that
    are not 0: with only one of them, or with a 0, the dates are not filtered
    at all; an empty status text does not filter either.  With a status given
    the rows are exactly those of that status; with a year and a month given
    they are the rows whose start date is in that year and whose start date
    or end date is in that month of any year. *)
Theorem list_requests_filters y m s st :
  list_requests (Some y) None s st = list_requests None None s st /\
  list_requests None (Some m) s st = list_requests None None s st /\
  list_requests (Some 0) (Some m) s st = list_requests None None s st /\
  list_requests (Some y) (Some 0) s st = list_requests None None s st /\
  list_requests (Some y) (Some m) (Some ""%string) st
  = list_requests (Some y) (Some m) None st /\
  (forall r, In r (list_requests None None None st) <-> In r (vacations st)) /\
  (forall status_text r, status_text <> ""%string ->
     (In r (list_requests None None (Some status_text) st) <->
      In r (vacations st) /\ status r = status_text)) /\
  (forall r, y <> 0 -> m <> 0 ->
     (In r (list_requests (Some y) (Some m) None st) <->
      In r (vacations st) /\ Date.year (start_date r) = y /\
      (Date.month (start_date r) = m \/ Date.month (end_date r) = m))).
Proof.
  split; [done|]. split; [done|]. split; [done|].
  split.
  { unfold list_requests, list_requests_where. simpl. by rewrite andb_false_r. }
  split; [done|]. split; [|split].
  - intros r. split.
    + intros Hr. apply list_requests_spec in Hr. tauto.
    + intros Hr. apply list_requests_spec. auto.
  - intros status_text r Hne. apply String.eqb_neq in Hne.
    destruct (list_requests_spec None None (Some status_text) st) as [Hin _].
    rewrite Hin. unfold list_requests_where. simpl. rewrite Hne. simpl.
    by rewrite String.eqb_eq.
  - intros r Hy Hm. apply Z.eqb_neq in Hy, Hm.
    destruct (list_requests_spec (Some y) (Some m) None st) as [Hin _].
    rewrite Hin. unfold list_requests_where, in_year_month. rewrite Hy, Hm. simpl.
    rewrite andb_true_r, andb_true_iff, orb_true_iff, !Z.eqb_eq. tauto.
Qed.
(** ** The generator, again *)

Lemma daterange_loop_ascending fuel : forall cur d1 ds,
  Date.valid_date cur = true ->
  daterange_loop fuel cur d1 = Ok ds ->
  StronglySorted Date.lt ds /\ Forall (fun x => Date.leb cur x = true) ds.
Proof.
  induction fuel as [|fuel IH]; intros cur d1 ds Hc; simpl.
  - destruct (Date.leb cur d1); [done|]. intros [= <-]. split; constructor.
  - destruct (Date.leb cur d1); [|intros [= <-]; split; constructor].
    destruct (Date.succ cur) as [n| |] eqn:Hn; simpl; try done.
    destruct (daterange_loop fuel n d1) as [rest| |] eqn:Hrest; simpl; try done.
    intros [= <-].
    destruct (date_succ_next cur n Hc Hn) as (Hvn & Hlt & _).
    destruct (IH n d1 rest Hvn Hrest) as [Hsorted Hall].
    split.
    + constructor; [done|]. eapply Forall_impl; [exact Hall|].
      intros x Hx. cbv beta in Hx. unfold Date.lt. date_lia.
    + constructor; [apply date_leb_refl|].
      eapply Forall_impl; [exact Hall|]. intros x Hx. cbv beta in Hx. date_lia.
Qed.

(** X13.  On dates Python can represent, daterange yields the dates from d0
    to d1, both included, in ascending order and each once; nothing when d0
    is after d1.  When d1 is 9999-12-31 and d0 is not after it, the step past
    the last date raises OverflowError. *)
Theorem daterange_yields_the_range d0 d1 :
  Date.valid_date d0 = true -> Date.valid_date d1 = true ->
  (Date.leb d0 d1 = true -> d1 = mkdate 9999 12 31 ->
   daterange d0 d1 = Raise OverflowError) /\
  ((Date.leb d0 d1 = true -> d1 <> mkdate 9999 12 31) ->
   exists ds,
     daterange d0 d1 = Ok ds /\
     (forall x, In x ds <->
        Date.valid_date x = true /\ Date.leb d0 x = true /\ Date.leb x d1 = true) /\
     StronglySorted Date.lt ds /\
     (Date.ltb d1 d0 = true -> ds = [])).
Proof.
  intros H0 H1. split.
  - intros _ ->. by apply daterange_overflow.
  - intros Hmax.
    destruct (daterange_ok d0 d1 H0 H1 Hmax) as (ds & Hds & Hin).
    exists ds. split; [done|]. split; [done|]. split.
    + by destruct (daterange_loop_ascending _ _ _ _ H0 Hds).
    + intros Hinv. rewrite (daterange_inverted _ _ Hinv) in Hds. congruence.
Qed.

Lemma daterange_yields_the_range_witness :
  daterange (mkdate 2024 2 28) (mkdate 2024 3 1)
  = Ok [mkdate 2024 2 28; mkdate 2024 2 29; mkdate 2024 3 1] /\
  daterange (mkdate 9999 12 30) (mkdate 9999 12 31) = Raise OverflowError.
Proof.
  destruct (daterange_yields_the_range (mkdate 9999 12 30) (mkdate 9999 12 31)
              eq_refl eq_refl) as [Hov _].
  destruct (daterange_yields_the_range (mkdate 2024 2 28) (mkdate 2024 3 1)
              eq_refl eq_refl) as [_ Hok].
  split; [|exact (Hov eq_refl eq_refl)].
  destruct Hok as (ds & Hds & _); [discriminate|].
  rewrite Hds. vm_compute in Hds. symmetry. exact Hds.
Defined.

(** ** The matrix, again *)

(** X14.  In the matrix returned for a month, a day of an active employee is
    empty exactly when no stored request of that employee covers it, and a
    status stands in a cell only if a stored request of that employee with
    that status covers the day. *)
Theorem matrix_cells_come_from_requests st y m :
  1 <= y <= 9999 -> 1 <= m <= 12 -> dates_valid st ->
  (y = 9999 -> m = 12 ->
   forall r, In r (vacations st) -> covers r (mkdate 9999 12 31) = false) ->
  exists mx,
    get_calendar_matrix y m st = Ok (mx, Date.days_in_month y m) /\
    forall e k, is_active st e -> 1 <= k <= Date.days_in_month y m ->
      (cell mx e k = Some None <->
       forall r, In r (vacations st) -> employee r = e ->
                 covers r (mkdate y m k) = false) /\
      (forall s, cell mx e k = Some (Some s) ->
         exists r, In r (vacations st) /\ employee r = e /\
                   covers r (mkdate y m k) = true /\ status r = s).
Proof.
  intros Hy Hm Hval Hov.
  destruct (get_calendar_matrix_ok st y m Hy Hm Hval Hov)
    as (mx & Hres & _ & Hin & _).
  exists mx. split; [done|]. intros e k Ha Hk. rewrite (Hin e k Ha Hk).
  destruct (last_covering (vacations st) e (mkdate y m k)) as [s|] eqn:El.
  - destruct (last_covering_Some _ _ _ _ El) as (r & Hr & He & Hc & Hs).
    split.
    + split; [done|]. intros Hnone. rewrite (Hnone r Hr He) in Hc. done.
    + intros s' [= <-]. eauto.
  - split; [|done]. split; [|done].
    intros _. by apply last_covering_None.
Qed.

Lemma matrix_cells_come_from_requests_witness :
  exists mx,
    get_calendar_matrix 2024 4 db_easter = Ok (mx, 30) /\
    cell mx "ANA" 3 = Some None /\ cell mx "BOB" 1 = Some None.
Proof.
  destruct (matrix_cells_come_from_requests db_easter 2024 4) as (mx & Hres & Hcells).
  - lia.
  - lia.
  - intros r [<-|[]]. split; reflexivity.
  - intros Hy. lia.
  - exists mx. split; [exact Hres|]. split.
    + apply (Hcells "ANA"%string 3).
      * exists (mkemployee "ANA" 1). simpl. auto.
      * change (Date.days_in_month 2024 4) with 30. lia.
      * intros r [<-|[]] _. reflexivity.
    + apply (Hcells "BOB"%string 1).
      * exists (mkemployee "BOB" 1). simpl. auto.
      * change (Date.days_in_month 2024 4) with 30. lia.
      * intros r [<-|[]] Hemp. discriminate Hemp.
Defined.

Lemma get_calendar_matrix_overflow_witness :
  get_calendar_matrix 9999 12 db_9999 = Raise OverflowError.
Proof.
  apply get_calendar_matrix_overflow.
  - intros r [<-|[]]. split; reflexivity.
  - exists ana_9999. split; [by left|reflexivity].
Defined.
(** ** The pages of app.py *)

Section Provenance.

Implicit Types mx : gmap string (gmap Z (option string)).

Lemma mark_request_provenance start end_ mx r mx' e k s :
  mark_request start end_ mx r = Ok mx' ->
  cell mx' e k = Some (Some s) ->
  cell mx e k = Some (Some s) \/ (employee r = e /\ status r = s).
Proof.
  unfold mark_request. destruct (daterange _ _) as [ds| |]; simpl; try done.
  intros [= <-] Hc.
  destruct (mx !! e) as [row|] eqn:Hrow.
  - rewrite cell_foldl_mark in Hc by (by rewrite Hrow).
    destruct (String.eqb_spec (employee r) e) as [He|He]; simpl in Hc; [|by left].
    destruct (existsb _ ds); [|by left]. right. split; congruence.
  - exfalso. unfold cell in Hc.
    destruct (foldl _ mx ds !! e) eqn:Hrow'; [|done].
    assert (is_Some (mx !! e)) as [? Habs].
    { apply (foldl_mark_dom (employee r) (status r) ds). eauto. }
    congruence.
Qed.

Lemma mark_requests_provenance start end_ rows : forall mx mx' e k s,
  mark_requests start end_ mx rows = Ok mx' ->
  cell mx' e k = Some (Some s) ->
  cell mx e k = Some (Some s) \/
  exists r, In r rows /\ employee r = e /\ status r = s.
Proof.
  induction rows as [|r rows IH]; intros mx mx' e k s; simpl.
  - intros [= <-]. by left.
  - destruct (mark_request start end_ mx r) as [mx1| |] eqn:E1; simpl; try done.
    intros Hrest Hc.
    destruct (IH _ _ _ _ _ Hrest Hc) as [Hc1|(r' & Hr' & He & Hs)].
    + destruct (mark_request_provenance _ _ _ _ _ _ _ _ E1 Hc1) as [?|[He Hs]];
        [by left|]. right. exists r. auto.
    + right. exists r'. auto.
Qed.

End Provenance.

Lemma empty_matrix_unmarked emps days e k s :
  cell (empty_matrix emps days) e k <> Some (Some s).
Proof.
  unfold cell, empty_matrix. rewrite lookup_const_map.
  case_decide; [|done]. rewrite empty_row_lookup. by case_decide.
Qed.

(** X16.  Whatever month is shown, a cell of the matrix holds nothing or the
    status of a stored request of that employee; on a store of allowed
    statuses the grid therefore shows A, P or R exactly for approved, pending
    and rejected, and the empty text exactly for an empty cell. *)
Theorem grid_letters st y m mx days e row k c :
  statuses_ok st ->
  get_calendar_matrix y m st = Ok (mx, days) ->
  mx !! e = Some row -> row !! k = Some c ->
  (forall s, c = Some s ->
     exists r, In r (vacations st) /\ employee r = e /\ status r = s) /\
  (exists letters, grid mx !! e = Some letters /\
                   letters !! k = Some (cell_letter c)) /\
  (c = None /\ cell_letter c = ""%string \/
   c = Some "aprobada"%string /\ cell_letter c = "A"%string \/
   c = Some "pendiente"%string /\ cell_letter c = "P"%string \/
   c = Some "rechazada"%string /\ cell_letter c = "R"%string).
Proof.
  intros Hok Hres Hrow Hc.
  assert (forall s, c = Some s ->
            exists r, In r (vacations st) /\ employee r = e /\ status r = s) as Hprov.
  { intros s ->. revert Hres. unfold get_calendar_matrix.
    destruct (Date.monthrange y m) as [days'| |]; simpl; try done.
    destruct (Date.new_date y m 1) as [start| |]; simpl; try done.
    destruct (Date.new_date y m days') as [end_| |]; simpl; try done.
    destruct (mark_requests start end_ _ _) as [mx'| |] eqn:Hmr; simpl; try done.
    intros [= -> ->].
    assert (cell mx e k = Some (Some s)) as Hcell
      by (unfold cell; by rewrite Hrow).
    destruct (mark_requests_provenance _ _ _ _ _ _ _ _ Hmr Hcell)
      as [Habs|(r & Hr & He & Hs)].
    - by apply empty_matrix_unmarked in Habs.
    - apply filter_In in Hr. exists r. tauto. }
  split; [exact Hprov|]. split.
  - exists (cell_letter <$> row). unfold grid.
    rewrite lookup_fmap, Hrow. split; [done|].
    by rewrite lookup_fmap, Hc.
  - destruct c as [s|]; [|by left]. right.
    destruct (Hprov s eq_refl) as (r & Hr & _ & Hs).
    specialize (Hok r Hr). rewrite Hs in Hok.
    apply status_check_spec in Hok.
    destruct Hok as [-> | [-> | ->]]; auto.
Qed.

Lemma grid_letters_witness :
  exists mx row,
    get_calendar_matrix 2024 3 db_overlap = Ok (mx, 31) /\
    mx !! "ANA" = Some row /\ row !! 4 = Some (Some "pendiente"%string) /\
    exists letters, grid mx !! "ANA" = Some letters /\ letters !! 4 = Some "P"%string.
Proof.
  assert (is_active db_overlap "ANA") as Ha.
  { exists (mkemployee "ANA" 1). simpl. auto. }
  destruct (get_calendar_matrix_ok db_overlap 2024 3) as (mx & Hres & Hdom & Hin & _).
  - lia.
  - lia.
  - intros r [<-|[<-|[]]]; split; reflexivity.
  - intros Hy. lia.
  - change (Date.days_in_month 2024 3) with 31 in Hres, Hin.
    destruct (proj2 (Hdom "ANA"%string) Ha) as [row Hrow].
    assert (row !! 4 = Some (Some "pendiente"%string)) as Hc.
    { specialize (Hin "ANA"%string 4 Ha ltac:(lia)).
      unfold cell in Hin. rewrite Hrow in Hin. exact Hin. }
    exists mx, row. split; [exact Hres|]. split; [exact Hrow|]. split; [exact Hc|].
    assert (statuses_ok db_overlap) as Hok
      by (intros r [<-|[<-|[]]]; reflexivity).
    destruct (grid_letters db_overlap 2024 3 mx 31 "ANA"%string row 4 _
                Hok Hres Hrow Hc) as (_ & Hgrid & _).
    exact Hgrid.
Defined.

Lemma has_overlap_own_range now emp s e nt st :
  has_overlap_for_employee emp s e true (snd (create_request now emp s e nt st))
  = has_overlap_for_employee emp s e true st || Date.leb s e.
Proof.
  unfold has_overlap_for_employee. rewrite !count_positive. simpl.
  rewrite existsb_app. simpl. rewrite orb_false_r. f_equal.
  rewrite String.eqb_refl. unfold intersects, Date.leb. simpl.
  by rewrite orb_diag.
Qed.

(** X17.  A request sent with two dates is always stored, whether or not the
    overlap warning was shown: one new pending request of that employee, its
    dates put in order, so that the form never stores a range with the start
    after the end.  With anything but two dates nothing is stored. *)
Theorem submit_request_always_stores now emp nt st :
  (forall a b, exists r,
     submit_request now emp [a; b] nt st
     = (Sent (has_overlap_for_employee emp (start_date r) (end_date r) true st),
        mkdb (vacations st ++ [r]) (id r) (employees st)) /\
     employee r = emp /\ status r = "pendiente"%string /\ note r = Some nt /\
     Date.leb (start_date r) (end_date r) = true /\
     ((start_date r = a /\ end_date r = b) \/
      (start_date r = b /\ end_date r = a)) /\
     has_overlap_for_employee emp (start_date r) (end_date r) true
       (snd (submit_request now emp [a; b] nt st)) = true) /\
  (forall date_range, length date_range <> 2%nat ->
     submit_request now emp date_range nt st = (InvalidRange, st)).
Proof.
  split.
  - intros a b. destruct (Date.ltb b a) eqn:E.
    + exists (mkvacation (next_rowid st) emp b a "pendiente" (Some nt) now None None).
      assert (submit_request now emp [a; b] nt st
              = (Sent (has_overlap_for_employee emp b a true st),
                 snd (create_request now emp b a (Some nt) st))) as Hs
        by (unfold submit_request, sorted_pair; by rewrite E).
      rewrite Hs. cbn [snd start_date end_date employee status note id].
      split; [reflexivity|]. do 3 (split; [reflexivity|]).
      assert (Date.leb b a = true) as Hle by date_lia.
      split; [done|]. split; [by right|].
      by rewrite has_overlap_own_range, Hle, orb_true_r.
    + exists (mkvacation (next_rowid st) emp a b "pendiente" (Some nt) now None None).
      assert (submit_request now emp [a; b] nt st
              = (Sent (has_overlap_for_employee emp a b true st),
                 snd (create_request now emp a b (Some nt) st))) as Hs
        by (unfold submit_request, sorted_pair; by rewrite E).
      rewrite Hs. cbn [snd start_date end_date employee status note id].
      split; [reflexivity|]. do 3 (split; [reflexivity|]).
      assert (Date.leb a b = true) as Hle by (unfold Date.leb; by rewrite E).
      split; [done|]. split; [by left|].
      by rewrite has_overlap_own_range, Hle, orb_true_r.
  - intros [|a [|b [|c l]]] Hlen; simpl in *; done.
Qed.

Lemma same_id_same_row rs x y :
  NoDup (map id rs) -> In x rs -> In y rs -> id x = id y -> x = y.
Proof.
  induction rs as [|r rs IH]; simpl; [done|].
  intros [Hfresh Hnd]%NoDup_cons [->|Hx] [->|Hy] Hid; try done.
  - destruct Hfresh. apply list_elem_of_In, in_map_iff. exists y. auto.
  - destruct Hfresh. apply list_elem_of_In, in_map_iff. exists x. auto.
  - by apply IH.
Qed.

(** X18.  Cancelling one of the user's own pending requests on the page
    removes that request and no other, for any user name, the empty one
    included.  The id of the request is a SQLite integer, as stored ids
    are. *)
Theorem cancel_removes_that_request user r st :
  ids_ok st -> fits_int64 (id r) = true ->
  In r (my_requests user st) -> cancel_shown r = true ->
  fst (cancel_request user r st) = Ok tt /\
  (forall x, In x (vacations (snd (cancel_request user r st))) <->
             In x (vacations st) /\ x <> r) /\
  (forall x, In x (my_requests user (snd (cancel_request user r st))) <->
             In x (my_requests user st) /\ x <> r).
Proof.
  intros (Hnd & _ & _) Hfit Hmine Hpend.
  unfold my_requests in Hmine. apply filter_In in Hmine.
  destruct Hmine as [Hr Hown]. apply list_requests_spec in Hr.
  destruct Hr as [Hr _]. apply String.eqb_eq in Hown.
  unfold cancel_shown in Hpend. apply String.eqb_eq in Hpend.
  assert (forall x, In x (vacations (snd (cancel_request user r st))) <->
                    In x (vacations st) /\ x <> r) as Hrows.
  { intros x. unfold cancel_request. rewrite delete_request_in_range by done.
    cbn [snd vacations]. rewrite filter_In.
    destruct (String.eqb user "") eqn:Eu; cbn [negb].
    - rewrite negb_true_iff, Z.eqb_neq. split.
      + intros [Hx Hid]. split; [done|]. by intros ->.
      + intros [Hx Hne]. split; [done|]. intros Hid. apply Hne.
        by apply (same_id_same_row (vacations st)).
    - rewrite negb_true_iff, <- not_true_iff_false, own_pending_spec.
      unfold is_own_pending. split.
      + intros [Hx Hno]. split; [done|]. intros ->. by apply Hno.
      + intros [Hx Hne]. split; [done|]. intros (Hid & _ & _). apply Hne.
        by apply (same_id_same_row (vacations st)). }
  split; [unfold cancel_request; by rewrite delete_request_in_range|].
  split; [exact Hrows|].
  intros x. unfold my_requests. rewrite !filter_In.
  destruct (list_requests_spec None None None (snd (cancel_request user r st)))
    as [Hin' _].
  destruct (list_requests_spec None None None st) as [Hin _].
  rewrite Hin', Hin, Hrows. unfold list_requests_where. simpl. tauto.
Qed.

Lemma cancel_removes_that_request_witness :
  ids_ok db_overlap /\
  forall x, In x (vacations (snd (cancel_request "ANA" ana_pending db_overlap))) <->
            In x (vacations db_overlap) /\ x <> ana_pending.
Proof.
  assert (ids_ok db_overlap) as Hok.
  { split.
    - simpl. apply NoDup_cons. split; [|apply NoDup_singleton].
      intros Hin. apply list_elem_of_In in Hin. destruct Hin as [Heq|[]].
      discriminate Heq.
    - simpl. split; [lia|]. intros r [<-|[<-|[]]]; simpl; lia. }
  split; [exact Hok|].
  destruct (cancel_removes_that_request "ANA" ana_pending db_overlap Hok)
    as (_ & Hrows & _).
  - reflexivity.
  - simpl. right. by left.
  - reflexivity.
  - exact Hrows.
Defined.

Lemma decision_rows now v new_status approver st x :
  fits_int64 v = true ->
  status_check new_status = true ->
  (In x (vacations (snd (update_status now v new_status approver st))) <->
   (exists r, In r (vacations st) /\ id r = v /\
      x = set_status new_status approver
            (if is_decision new_status then Some now else None) r) \/
   (In x (vacations st) /\ id x <> v)).
Proof.
  intros Hfit Hok. rewrite update_status_in_range by done.
  rewrite Hok, andb_false_r.
  cbn [snd vacations]. rewrite in_map_iff. split.
  - intros (r & Hx & Hr). destruct (Z.eqb_spec (id r) v) as [Hid|Hid].
    + left. eauto.
    + right. by subst x.
  - intros [(r & Hr & Hid & ->)|[Hx Hid]].
    + exists r. by rewrite (proj2 (Z.eqb_eq _ _) Hid).
    + exists x. by rewrite (proj2 (Z.eqb_neq _ _) Hid).
Qed.

(** X19.  Approving or rejecting a request of the pending list takes that
    request, and no other, off the list, and puts it on the listing of its
    new status with the manager as approver and the time of the decision.
    The id of the request is a SQLite integer, as stored ids are. *)
Theorem decision_leaves_pending_list now manager r st :
  ids_ok st -> fits_int64 (id r) = true -> In r (pending_requests st) ->
  (fst (approve now manager r st) = Ok tt /\
   (forall x, In x (pending_requests (snd (approve now manager r st))) <->
              In x (pending_requests st) /\ x <> r) /\
   In (set_status "aprobada" (Some manager) (Some now) r)
      (list_requests None None (Some "aprobada"%string)
                     (snd (approve now manager r st)))) /\
  (fst (reject now manager r st) = Ok tt /\
   (forall x, In x (pending_requests (snd (reject now manager r st))) <->
              In x (pending_requests st) /\ x <> r) /\
   In (set_status "rechazada" (Some manager) (Some now) r)
      (list_requests None None (Some "rechazada"%string)
                     (snd (reject now manager r st)))).
Proof.
  intros (Hnd & _ & _) Hfit Hpend.
  assert (forall s st' x, s <> ""%string ->
            (In x (list_requests None None (Some s) st') <->
             In x (vacations st') /\ status x = s)) as Hlist.
  { intros s st' x Hs. apply String.eqb_neq in Hs.
    destruct (list_requests_spec None None (Some s) st') as [Hin _].
    rewrite Hin. unfold list_requests_where. simpl. rewrite Hs. simpl.
    by rewrite String.eqb_eq. }
  unfold pending_requests in *.
  apply Hlist in Hpend; [|done]. destruct Hpend as [Hr Hst].
  assert (forall new_status,
            new_status = "aprobada"%string \/ new_status = "rechazada"%string ->
            fst (update_status now (id r) new_status (Some manager) st) = Ok tt /\
            (forall x,
               In x (list_requests None None (Some "pendiente"%string)
                       (snd (update_status now (id r) new_status (Some manager) st)))
               <-> In x (list_requests None None (Some "pendiente"%string) st)
                   /\ x <> r) /\
            In (set_status new_status (Some manager) (Some now) r)
               (list_requests None None (Some new_status)
                  (snd (update_status now (id r) new_status (Some manager) st))))
    as Hboth.
  { intros new_status Hnew.
    assert (status_check new_status = true) as Hok
      by (apply status_check_spec; tauto).
    assert (is_decision new_status = true) as Hdec
      by (by apply is_decision_spec).
    assert (new_status <> "pendiente"%string /\ new_status <> ""%string) as [Hnp Hne]
      by (destruct Hnew as [-> | ->]; done).
    split; [|split].
    - rewrite update_status_in_range by done. by rewrite Hok, andb_false_r.
    - intros x. rewrite !Hlist by done.
      rewrite (decision_rows now (id r) new_status (Some manager) st x Hfit Hok).
      split.
      + intros [[(r0 & Hr0 & Hid & ->)|[Hx Hid]] Hs]; [done|].
        split; [done|]. by intros ->.
      + intros [[Hx Hs] Hxr]. split; [|done]. right. split; [done|].
        intros Hid. apply Hxr. by apply (same_id_same_row (vacations st)).
    - apply Hlist; [done|]. split; [|done].
      apply (decision_rows now (id r) new_status (Some manager) st _ Hfit Hok).
      left. exists r. by rewrite Hdec. }
  split; [apply (Hboth "aprobada"%string); by left
         |apply (Hboth "rechazada"%string); by right].
Qed.

Lemma decision_leaves_pending_list_witness :
  ids_ok db_overlap /\
  forall x, In x (pending_requests (snd (approve 900 "BOSS" ana_pending db_overlap)))
            <-> In x (pending_requests db_overlap) /\ x <> ana_pending.
Proof.
  assert (ids_ok db_overlap) as Hok.
  { split.
    - simpl. apply NoDup_cons. split; [|apply NoDup_singleton].
      intros Hin. apply list_elem_of_In in Hin. destruct Hin as [Heq|[]].
      discriminate Heq.
    - simpl. split; [lia|]. intros r [<-|[<-|[]]]; simpl; lia. }
  split; [exact Hok|].
  destruct (decision_leaves_pending_list 900 "BOSS" ana_pending db_overlap Hok)
    as ((_ & Hrows & _) & _).
  - reflexivity.
  - simpl. by left.
  - exact Hrows.
Defined.

(** X20.  Without authentication the employee select box offers the active
    employees, each once and in the order of the listing; with no active
    employee it offers the single placeholder "Empleado", who is no row of
    the roster. *)
Theorem employee_options_are_the_active st :
  roster_ok st ->
  employee_options (list_employees true st) =
  match list_employees true st with
  | [] => ["Empleado"%string]
  | names => names
  end.
Proof.
  intros Hok.
  assert (NoDup (list_employees true st)) as Hnd
    by (unfold list_employees; by apply NoDup_map_filter).
  destruct (list_employees true st) as [|n names]; [done|].
  unfold employee_options. simpl. rewrite String.eqb_refl. simpl. f_equal.
  apply NoDup_cons in Hnd. destruct Hnd as [Hfresh _].
  apply filter_all. intros x Hx. apply negb_true_iff, String.eqb_neq.
  intros ->. apply Hfresh. by apply list_elem_of_In.
Qed.

Lemma employee_options_are_the_active_witness :
  roster_ok db_roster /\
  employee_options (list_employees true db_roster) = ["BOB"%string] /\
  employee_options (list_employees true (mkdb [] 0 [])) = ["Empleado"%string].
Proof.
  assert (roster_ok db_roster) as Hok.
  { unfold roster_ok. simpl. apply NoDup_cons. split; [|apply NoDup_singleton].
    intros Hin. apply list_elem_of_In in Hin. destruct Hin as [Heq|[]].
    discriminate Heq. }
  split; [exact Hok|]. split.
  - exact (employee_options_are_the_active db_roster Hok).
  - apply (employee_options_are_the_active (mkdb [] 0 [])). constructor.
Defined.

Lemma covers_set_status new_status approver stamp r d :
  covers (set_status new_status approver stamp r) d = covers r d.
Proof. done. Qed.

(** X21.  After a request of an active employee is approved, the matrix of
    a month shows "aprobada" on every day of the month that this request
    covers and no other request of the employee does.  The id of the request
    is a SQLite integer, as stored ids are. *)
Theorem approved_request_shows_approved now manager r st y m k :
  1 <= y <= 9999 -> 1 <= m <= 12 -> dates_valid st ->
  (y = 9999 -> m = 12 ->
   forall r0, In r0 (vacations st) -> covers r0 (mkdate 9999 12 31) = false) ->
  In r (vacations st) -> fits_int64 (id r) = true ->
  is_active st (employee r) ->
  1 <= k <= Date.days_in_month y m -> covers r (mkdate y m k) = true ->
  (forall r0, In r0 (vacations st) -> employee r0 = employee r ->
              covers r0 (mkdate y m k) = true -> r0 = r) ->
  exists mx,
    get_calendar_matrix y m (snd (approve now manager r st))
    = Ok (mx, Date.days_in_month y m) /\
    cell mx (employee r) k = Some (Some "aprobada"%string).
Proof.
  intros Hy Hm Hval Hov Hr Hfit Ha Hk Hc Honly.
  assert (forall x,
            In x (vacations (snd (approve now manager r st))) ->
            exists r0, In r0 (vacations st) /\
              employee x = employee r0 /\ start_date x = start_date r0 /\
              end_date x = end_date r0 /\
              (id r0 = id r -> status x = "aprobada"%string) /\
              (id r0 <> id r -> x = r0)) as Hrows.
  { intros x Hx. unfold approve in Hx.
    apply (decision_rows now (id r) "aprobada" (Some manager) st x Hfit eq_refl)
      in Hx.
    destruct Hx as [(r0 & Hr0 & Hid & ->)|[Hx Hid]].
    - exists r0. simpl. repeat split; try done.
    - exists x. repeat split; try done. }
  destruct (get_calendar_matrix_ok (snd (approve now manager r st)) y m Hy Hm)
    as (mx & Hres & _ & Hin & _).
  - intros x Hx. destruct (Hrows x Hx) as (r0 & Hr0 & _ & -> & -> & _).
    by apply Hval.
  - intros Hy9 Hm12 x Hx. destruct (Hrows x Hx) as (r0 & Hr0 & _ & Hs & He & _).
    unfold covers. rewrite Hs, He. by apply (Hov Hy9 Hm12 r0).
  - exists mx. split; [done|].
    assert (is_active (snd (approve now manager r st)) (employee r)) as Ha'.
    { unfold is_active, approve. rewrite update_status_in_range by done.
      change (status_check "aprobada") with true. cbn [negb].
      by rewrite andb_false_r. }
    rewrite (Hin (employee r) k Ha' Hk).
    destruct (last_covering _ (employee r) (mkdate y m k)) as [s|] eqn:El.
    + destruct (last_covering_Some _ _ _ _ El) as (x & Hx & He & Hcx & Hs).
      destruct (Hrows x Hx) as (r0 & Hr0 & He0 & Hs0 & He1 & Hsame & _).
      assert (r0 = r) as ->.
      { apply Honly; [done|congruence|]. unfold covers in *. by rewrite <- Hs0, <- He1. }
      rewrite <- Hs. by rewrite Hsame.
    + exfalso.
      assert (In (set_status "aprobada" (Some manager) (Some now) r)
                 (vacations (snd (approve now manager r st)))) as Hnew.
      { unfold approve.
        apply (decision_rows now (id r) "aprobada" (Some manager) st _ Hfit eq_refl).
        left. exists r. auto. }
      pose proof (last_covering_None _ _ _ El _ Hnew eq_refl) as Hno.
      rewrite covers_set_status in Hno. congruence.
Qed.

Lemma approved_request_shows_approved_witness :
  exists mx,
    get_calendar_matrix 2024 4 (snd (approve 900 "BOSS" ana_easter db_easter))
    = Ok (mx, 30) /\
    cell mx "ANA" 2 = Some (Some "aprobada"%string).
Proof.
  apply (approved_request_shows_approved 900 "BOSS" ana_easter db_easter 2024 4 2).
  - lia.
  - lia.
  - intros r [<-|[]]. split; reflexivity.
  - intros Hy. lia.
  - by left.
  - reflexivity.
  - exists (mkemployee "ANA" 1). simpl. auto.
  - change (Date.days_in_month 2024 4) with 30. lia.
  - reflexivity.
  - intros r0 [<-|[]] _ _. reflexivity.
Defined.
